(** * nihreporter_get_funding: roster extraction and active-grant report

    A shallow embedding of the two scripts of the repository:

    - [create_name_list.py]: the regular expression [pattern], the
      [re.findall] scan, the trimming loop and the order-preserving
      duplicate removal ([unique_name_list] / [seen_names]);
    - [get_funding.py]: [format_date], [format_currency],
      [get_nih_funding], [display_funding_info] and the roster loop of
      the main program that accumulates [grant_lists].

    Python values are modelled as they are at run time: a [str] is a
    sequence of Unicode code points, an [int] is unbounded, a [dict]
    decoded from JSON is a finite map, and a raised exception is an
    explicit result. *)

From Stdlib Require Import ZArith NArith String Ascii DecimalString.
From stdpp Require Import gmap list.

Set Warnings "-register-all".

(** ** Python strings *)

(** A Python [str]: the list of its code points. *)
Definition pystr := list N.

Module Utf8.

(** Source literals are written as Rocq strings, which are byte
    sequences; [decode] reads them as UTF-8, so that the right single
    quotation mark of the source (U+2019) is one code point. *)

Definition cont (b : N) : N := N.land b 63.

Fixpoint decode (bs : list N) : pystr :=
  match bs with
  | [] => []
  | b :: bs1 =>
      if (b <? 128)%N then b :: decode bs1
      else if (b <? 224)%N then
        match bs1 with
        | b1 :: bs2 => (N.land b 31 * 64 + cont b1)%N :: decode bs2
        | _ => []
        end
      else if (b <? 240)%N then
        match bs1 with
        | b1 :: b2 :: bs3 =>
            (N.land b 15 * 4096 + cont b1 * 64 + cont b2)%N :: decode bs3
        | _ => []
        end
      else
        match bs1 with
        | b1 :: b2 :: b3 :: bs4 =>
            (N.land b 7 * 262144 + cont b1 * 4096 + cont b2 * 64 + cont b3)%N
              :: decode bs4
        | _ => []
        end
  end.

End Utf8.

(** [str "..."] is the Python string written as that literal. *)
Definition str (s : string) : pystr :=
  Utf8.decode (map N_of_ascii (list_ascii_of_string s)).

Definition in_range (lo hi c : N) : bool := (lo <=? c)%N && (c <=? hi)%N.

Definition is_upper (c : N) : bool := in_range 65 90 c.   (* [A-Z] *)
Definition is_lower (c : N) : bool := in_range 97 122 c.  (* [a-z] *)
Definition is_digit (c : N) : bool := in_range 48 57 c.   (* [0-9] *)

Definition COMMA : N := 44.
Definition HYPHEN : N := 45.
Definition PERIOD : N := 46.
Definition SPACE : N := 32.
Definition NEWLINE : N := 10.
Definition LETTER_T : N := 84.
(** U+2019, the apostrophe that the source pattern spells out. *)
Definition RSQUO : N := 8217.

(** Unicode white space, as [str.strip] and the [\s] of a [str] pattern
    see it. *)
Definition is_space (c : N) : bool :=
  in_range 9 13 c || in_range 28 32 c || (c =? 133)%N || (c =? 160)%N
  || (c =? 5760)%N || in_range 8192 8202 c || (c =? 8232)%N || (c =? 8233)%N
  || (c =? 8239)%N || (c =? 8287)%N || (c =? 12288)%N.

Fixpoint lstrip (s : pystr) : pystr :=
  match s with
  | c :: s' => if is_space c then lstrip s' else s
  | [] => []
  end.

Definition rstrip (s : pystr) : pystr := rev (lstrip (rev s)).

(** [s.strip()] *)
Definition strip (s : pystr) : pystr := rstrip (lstrip s).

(** ** create_name_list.py *)

Module Regex.

(** Backtracking repetition of a character class, in continuation
    passing style: the continuation gets the text the repetition
    consumed and the text that is left, and answers [None] to make the
    repetition try its next alternative. A greedy repetition tries the
    longest text first, a lazy one the shortest. *)

Section Repeat.
Context {A : Type}.
Variable cls : N -> bool.

Fixpoint greedy_star (s : pystr) (k : pystr -> pystr -> option A)
  : option A :=
  match s with
  | c :: s' =>
      if cls c then
        match greedy_star s' (fun m r => k (c :: m) r) with
        | Some a => Some a
        | None => k [] s
        end
      else k [] s
  | [] => k [] s
  end.

Definition greedy_plus (s : pystr) (k : pystr -> pystr -> option A)
  : option A :=
  match s with
  | c :: s' =>
      if cls c then greedy_star s' (fun m r => k (c :: m) r) else None
  | [] => None
  end.

Fixpoint lazy_star (s : pystr) (k : pystr -> pystr -> option A)
  : option A :=
  match k [] s with
  | Some a => Some a
  | None =>
      match s with
      | c :: s' =>
          if cls c then lazy_star s' (fun m r => k (c :: m) r) else None
      | [] => None
      end
  end.

Definition lazy_plus (s : pystr) (k : pystr -> pystr -> option A)
  : option A :=
  match s with
  | c :: s' =>
      if cls c then lazy_star s' (fun m r => k (c :: m) r) else None
  | [] => None
  end.
End Repeat.

(** A literal character. *)
Definition lit {A : Type} (c : N) (s : pystr) (k : pystr -> option A)
  : option A :=
  match s with
  | c' :: s' => if (c' =? c)%N then k s' else None
  | [] => None
  end.

(** [$] without [re.MULTILINE]: the end of the string, or just before
    a newline that ends the string. *)
Definition at_dollar (s : pystr) : bool :=
  match s with
  | [] => true
  | [c] => (c =? NEWLINE)%N
  | _ => false
  end.

End Regex.

(** [[A-Za-z’\-]], a character of group 1 (the last name). *)
Definition last_name_char (c : N) : bool :=
  is_upper c || is_lower c || (c =? RSQUO)%N || (c =? HYPHEN)%N.

(** [[A-Za-z.\- ]], a character of group 2 (the first name). *)
Definition first_name_char (c : N) : bool :=
  is_upper c || is_lower c || (c =? PERIOD)%N || (c =? HYPHEN)%N
  || (c =? SPACE)%N.

(** [[a-z’\-]], what follows the capital of the next last name. *)
Definition next_last_char (c : N) : bool :=
  is_lower c || (c =? RSQUO)%N || (c =? HYPHEN)%N.

(** The lookahead [(?=[A-Z][a-z’\-]+,|$)]; it consumes nothing. *)
Definition lookahead (s : pystr) : bool :=
  match s with
  | c :: s' =>
      (is_upper c
       && bool_decide (is_Some
            (Regex.greedy_plus next_last_char s'
               (fun _ r => Regex.lit COMMA r (fun _ => Some tt)))))
      || Regex.at_dollar s
  | [] => true
  end.

(** One attempt of

      [pattern = r"([A-Za-z’\-]+),\s*([A-Za-z.\- ]+?)(?=[A-Z][a-z’\-]+,|$)"]

    at the start of [s]: the two groups and the number of characters
    the match consumed. *)
Definition pattern (s : pystr) : option (pystr * pystr * nat) :=
  Regex.greedy_plus last_name_char s (fun g1 r1 =>
    Regex.lit COMMA r1 (fun r2 =>
      Regex.greedy_star is_space r2 (fun ws r3 =>
        Regex.lazy_plus first_name_char r3 (fun g2 r4 =>
          if lookahead r4
          then Some (g1, g2, (length g1 + 1 + length ws + length g2)%nat)
          else None)))).

(** [re.findall]: scan left to right; a match at a position yields its
    groups and the scan resumes where the match ended, a failure moves
    the scan one character on. [skip] counts the characters of the
    current match still to be passed over. The pattern needs at least
    three characters, so nothing is found at the end of the text. *)
Fixpoint findall_from (skip : nat) (s : pystr) : list (pystr * pystr) :=
  match s with
  | [] => []
  | _ :: s' =>
      match skip with
      | S k => findall_from k s'
      | O =>
          match pattern s with
          | Some (g1, g2, n) => (g1, g2) :: findall_from (pred n) s'
          | None => findall_from 0 s'
          end
      end
  end.

(** [matches = re.findall(pattern, raw_data)] *)
Definition matches (raw_data : pystr) : list (pystr * pystr) :=
  findall_from 0 raw_data.

(** The loop that strips both names of every match. *)
Definition name_list_with_duplicates (raw_data : pystr)
  : list (pystr * pystr) :=
  map (fun m => (strip m.1, strip m.2)) (matches raw_data).

(** One iteration of the duplicate-removal loop; the state is
    [(unique_name_list, seen_names)]. *)
Definition dedup_step (st : list (pystr * pystr) * gset (pystr * pystr))
    (name_tuple : pystr * pystr)
  : list (pystr * pystr) * gset (pystr * pystr) :=
  if decide (name_tuple ∈ st.2)
  then st
  else (st.1 ++ [name_tuple], st.2 ∪ {[name_tuple]}).

Definition dedup_loop (names : list (pystr * pystr))
  : list (pystr * pystr) * gset (pystr * pystr) :=
  foldl dedup_step ([], ∅) names.

Definition unique_name_list (names : list (pystr * pystr))
  : list (pystr * pystr) :=
  (dedup_loop names).1.

(** The whole script, from the raw text to the printed list. *)
Definition create_name_list (raw_data : pystr) : list (pystr * pystr) :=
  unique_name_list (name_list_with_duplicates raw_data).

Definition raw_data : pystr :=
  str "al’Absi, Mustafaal’Absi, MustafaAnker, JustinBishop, JeffreyBishop, JeffreyCarroll, DanaCarroll, DanaCarroll, DanaCarroll, DanaConelea, ChristineConelea, ChristineConelea, ChristineFair, DamienFair, DamienFair, DamienFair, DamienGunlicks-Stoessel, MeredithGunlicks-Stoessel, MeredithKrueger, RobertKrueger, RobertKummerfeld, ErichKummerfeld, ErichKushner, MattLim, KelvinLim, KelvinLuciana, MonicaMcGue, MatthewMcMorris, BarbaraMcMorris, BarbaraMcMorris, BarbaraPeterson, CarolPeterson, CarolPiehler, TimothyRedish, A. DavidRedish, A. DavidRedish, A. DavidRinehart, LindaSchallmo, Michael-PaulSpecker, SheilaSpecker, SheilaSponheim, ScottSponheim, ScottSponheim, ScottThomas, MarkToomey, TraciVrieze, ScottVrieze, ScottWidome, RachelWilson, SyliaWilson, SyliaWilson, SyliaWilson, Sylia".

(** ** Python values, exceptions and dates *)

Inductive exn :=
| ValueError | TypeError | AttributeError | OverflowError | NameError.

(** The outcome of evaluating Python code: a value, or a raised
    exception that nothing has caught yet. *)
Inductive result (A : Type) :=
| Ok (a : A)
| Raise (e : exn).
Arguments Ok {A} a.
Arguments Raise {A} e.

(** Sequencing: an exception raised by the first statement skips the
    rest. Written [x ← r; k] below. *)
#[global] Instance result_bind : MBind result := fun A B k r =>
  match r with
  | Ok a => k a
  | Raise e => Raise e
  end.

(** [try: body except ValueError: handler] *)
Definition except_ValueError {A : Type} (body handler : result A) : result A :=
  match body with
  | Raise ValueError => handler
  | _ => body
  end.

(** A loop whose body may raise: the state is threaded through the
    items and the first exception ends the loop. *)
Fixpoint for_each {S X : Type} (body : S -> X -> result S) (xs : list X)
    (st : S) : result S :=
  match xs with
  | [] => Ok st
  | x :: xs' => st' ← body st x; for_each body xs' st'
  end.

(** A [float]: sign, and magnitude [m * 2^e] when it is finite. *)
Inductive pyfloat :=
| FFinite (neg : bool) (m : N) (e : Z)
| FInf (neg : bool)
| FNaN.

(** What [json] decodes to. *)
Inductive pyval :=
| PyNone
| PyBool (b : bool)
| PyInt (z : Z)
| PyFloat (f : pyfloat)
| PyStr (s : pystr)
| PyList (l : list pyval)
| PyDict (d : gmap pystr pyval).

(** A raw grant record: one entry of the [results] of a reply. *)
Abbreviation grant := (gmap pystr pyval).

(** Truth value of an object, as [if x:] and [not x] take it. *)
Definition truthy (v : pyval) : bool :=
  match v with
  | PyNone => false
  | PyBool b => b
  | PyInt z => negb (z =? 0)%Z
  | PyFloat (FFinite _ m _) => negb (m =? 0)%N
  | PyFloat _ => true
  | PyStr s => negb (bool_decide (s = []))
  | PyList l => match l with [] => false | _ => true end
  | PyDict d => negb (bool_decide (d = ∅))
  end.

(** [d.get(key)] and [d.get(key, default)] *)
Definition dict_get (d : grant) (key : string) : pyval :=
  default PyNone (d !! str key).

Definition dict_get_default (d : grant) (key : string) (dflt : pyval)
  : pyval :=
  default dflt (d !! str key).

(** [datetime.date]: a calendar date. *)
Record date := Date { year : Z; month : Z; day : Z }.

Definition is_leap (y : Z) : bool :=
  ((y mod 4 =? 0) && (negb (y mod 100 =? 0) || (y mod 400 =? 0)))%Z.

Definition days_in_month (y m : Z) : Z :=
  if (m =? 2)%Z then (if is_leap y then 29 else 28)
  else if ((m =? 4) || (m =? 6) || (m =? 9) || (m =? 11))%Z then 30
  else 31.

Definition valid_date (y m d : Z) : bool :=
  ((1 <=? y) && (y <=? 9999) && (1 <=? m) && (m <=? 12)
   && (1 <=? d) && (d <=? days_in_month y m))%Z.

(** [date(y, m, d)] *)
Definition date_new (y m d : Z) : result date :=
  if valid_date y m d then Ok (Date y m d) else Raise ValueError.

(** [d.replace(year=y)] *)
Definition date_replace_year (d : date) (y : Z) : result date :=
  date_new y (month d) (day d).

(** [a < b] and [a <= b] on dates. *)
Definition date_lt (a b : date) : bool :=
  ((year a <? year b)
   || ((year a =? year b)
       && ((month a <? month b)
           || ((month a =? month b) && (day a <? day b)))))%Z.

Definition date_le (a b : date) : bool := negb (date_lt b a).

(** [s.split('T')[0]]: the text before the first [T]. *)
Fixpoint before_T (s : pystr) : pystr :=
  match s with
  | c :: s' => if (c =? LETTER_T)%N then [] else c :: before_T s'
  | [] => []
  end.

(** [v.split('T')[0]] on an object: only a [str] has [split]. *)
Definition split_T_0 (v : pyval) : result pystr :=
  match v with
  | PyStr s => Ok (before_T s)
  | _ => Raise AttributeError
  end.

Module Strptime.

(** [datetime.strptime(s, '%Y-%m-%d')]. The format compiles to

      [(?P<Y>\d\d\d\d)-(?P<m>1[0-2]|0[1-9]|[1-9])-]
      [(?P<d>3[0-1]|[1-2]\d|0[1-9]|[1-9]| [1-9])]

    which is matched at the start of the text; text left over after
    the match, or a day the month does not have, is a [ValueError].
    Digits are the ASCII digits, which is what the dates of the
    service are written in. *)

Definition digit (c : N) : Z := (Z.of_N c - 48)%Z.

Definition one_to_nine (c : N) : bool := in_range 49 57 c.

(** The alternatives of a group that match at the start of the
    text, in the order the regular expression tries them: the number
    read and the text left. *)
Definition month_alts (s : pystr) : list (Z * pystr) :=
  match s with
  | a :: b :: r =>
      (if (a =? 49)%N && in_range 48 50 b then [((10 + digit b)%Z, r)] else [])
      ++ (if (a =? 48)%N && one_to_nine b then [(digit b, r)] else [])
      ++ (if one_to_nine a then [(digit a, b :: r)] else [])
  | [a] => if one_to_nine a then [(digit a, [])] else []
  | [] => []
  end.

Definition day_alts (s : pystr) : list (Z * pystr) :=
  match s with
  | a :: b :: r =>
      (if (a =? 51)%N && in_range 48 49 b then [((30 + digit b)%Z, r)] else [])
      ++ (if in_range 49 50 a && is_digit b
          then [((10 * digit a + digit b)%Z, r)] else [])
      ++ (if (a =? 48)%N && one_to_nine b then [(digit b, r)] else [])
      ++ (if one_to_nine a then [(digit a, b :: r)] else [])
      ++ (if (a =? SPACE)%N && one_to_nine b then [(digit b, r)] else [])
  | [a] => if one_to_nine a then [(digit a, [])] else []
  | [] => []
  end.

(** The month group, the hyphen and the day group: the first way to
    match them, with backtracking into the month. *)
Definition month_day (s : pystr) : option (Z * Z * pystr) :=
  head
    (mjoin
       (map (fun mr : Z * pystr =>
               match mr.2 with
               | h :: r =>
                   if (h =? HYPHEN)%N
                   then match head (day_alts r) with
                        | Some (d, rest) => [(mr.1, d, rest)]
                        | None => []
                        end
                   else []
               | [] => []
               end)
            (month_alts s))).

Definition strptime (s : pystr) : result date :=
  match s with
  | y1 :: y2 :: y3 :: y4 :: h :: r =>
      if is_digit y1 && is_digit y2 && is_digit y3 && is_digit y4
         && (h =? HYPHEN)%N
      then
        match month_day r with
        | Some (m, d, []) =>
            date_new (1000 * digit y1 + 100 * digit y2
                      + 10 * digit y3 + digit y4)%Z m d
        | _ => Raise ValueError
        end
      else Raise ValueError
  | _ => Raise ValueError
  end.

End Strptime.

(** Decimal digits of a natural number. *)
Definition decimal (n : N) : pystr :=
  map N_of_ascii (list_ascii_of_string (NilEmpty.string_of_uint (N.to_uint n))).

(** Left-pad with zeros to a width. *)
Definition zero_pad (width : nat) (s : pystr) : pystr :=
  replicate (width - length s) 48%N ++ s.

(** [d.strftime('%m/%d/%Y')]: month and day in two digits, the year as
    the C library prints it, which on Linux is without padding. *)
Definition strftime_mdy (d : date) : pystr :=
  zero_pad 2 (decimal (Z.to_N (month d))) ++ str "/"
  ++ zero_pad 2 (decimal (Z.to_N (day d))) ++ str "/"
  ++ decimal (Z.to_N (year d)).

(** ** get_funding.py: the two formatters *)

(** [format_date]: ["N/A"] for a missing or empty value, the date as
    [MM/DD/YYYY], or the original text when it does not parse. *)
Definition format_date (date_str : pyval) : result pystr :=
  if negb (truthy date_str) then Ok (str "N/A")
  else
    match date_str with
    | PyStr s =>
        except_ValueError
          (dt_obj ← Strptime.strptime (before_T s); Ok (strftime_mdy dt_obj))
          (Ok s)
    | _ => Raise AttributeError
    end.

Module Float.

(** Round [m / 2^sh] to the nearest integer, ties to even. *)
Definition shift_round (m sh : N) : N :=
  let q := N.shiftr m sh in
  let r := N.land m (N.ones sh) in
  let half := N.shiftl 1 (sh - 1) in
  if (sh =? 0)%N then m
  else if (half <? r)%N || ((r =? half)%N && N.odd q) then (q + 1)%N
  else q.

(** [float(z)] for an [int]: the nearest double, ties to even, and
    [OverflowError] when that is beyond the largest double. *)
Definition of_int (z : Z) : result pyfloat :=
  let a := Z.abs_N z in
  let sh := (N.size a - 53)%N in
  let m := shift_round a sh in
  if (N.shiftl 1 1024 <=? N.shiftl m sh)%N then Raise OverflowError
  else Ok (FFinite (z <? 0)%Z m (Z.of_N sh)).

(** The magnitude of a finite float rounded to no decimals. *)
Definition round_0 (m : N) (e : Z) : N :=
  if (0 <=? e)%Z then N.shiftl m (Z.to_N e)
  else shift_round m (Z.to_N (- e)).

(** A comma after every third digit, counted from the right; the
    digits come least significant first. *)
Fixpoint group3 (l : pystr) : pystr :=
  match l with
  | a :: b :: c :: ((_ :: _) as r) => a :: b :: c :: COMMA :: group3 r
  | _ => l
  end.

Definition thousands (digits : pystr) : pystr := rev (group3 (rev digits)).

Definition sign (neg : bool) : pystr := if neg then str "-" else [].

(** [format(x, ',.0f')] for a [float]. *)
Definition format_comma_0f (x : pyfloat) : pystr :=
  match x with
  | FFinite neg m e => sign neg ++ thousands (decimal (round_0 m e))
  | FInf neg => sign neg ++ str "inf"
  | FNaN => str "nan"
  end.

End Float.

(** [format(amount, ',.0f')]: an [int] (and a [bool], which is one) is
    converted to [float] first; a [str] does not know the format code
    and other objects take no format at all. *)
Definition format_comma_0f (amount : pyval) : result pystr :=
  match amount with
  | PyInt z => x ← Float.of_int z; Ok (Float.format_comma_0f x)
  | PyBool b => x ← Float.of_int (if b then 1 else 0); Ok (Float.format_comma_0f x)
  | PyFloat x => Ok (Float.format_comma_0f x)
  | PyStr _ => Raise ValueError
  | PyNone | PyList _ | PyDict _ => Raise TypeError
  end.

(** [format_currency] *)
Definition format_currency (amount : pyval) : result pystr :=
  match amount with
  | PyNone => Ok (str "N/A")
  | _ =>
      match (body ← format_comma_0f amount; Ok (str "$" ++ body)) with
      | Raise ValueError | Raise TypeError => Ok (str "N/A")
      | r => r
      end
  end.

(** ** get_funding.py: the query, the filter and the report *)

(** What the exchange with the service can come to, as far as
    [get_nih_funding] tells the cases apart: the request fails, the body
    does not decode, anything else goes wrong, or the body decodes, with
    or without a [results] entry. *)
Inductive api_outcome :=
| RequestException
| JSONDecodeError
| OtherException
| Json (results : option (list grant)).

(** [get_nih_funding]: the records of the reply, or the empty list when
    there are none or the exchange failed. It raises nothing. *)
Definition get_nih_funding (o : api_outcome) : list grant :=
  match o with
  | Json (Some (g :: gs)) => g :: gs
  | Json (Some []) | Json None => []
  | RequestException | JSONDecodeError | OtherException => []
  end.

Definition cutoff_date : date := Date 2026 1 1.

(** The text [grant.get("project_end_date", ...)] falls back to. *)
Definition default_end_date : pyval := PyStr (str "2020-01-01T12:00:00Z").

(** The body of the filtering loop of [display_funding_info]: the state
    is [active_grants]. *)
Definition filter_body (today : date) (active_grants : list grant)
    (g : grant) : result (list grant) :=
  let budget_end_str := dict_get g "budget_end" in
  let end_date_str := dict_get_default g "project_end_date" default_end_date in
  if truthy end_date_str then
    except_ValueError
      (budget_end_part ← split_T_0 budget_end_str;
       budget_end_date ← Strptime.strptime budget_end_part;
       end_part ← split_T_0 end_date_str;
       end_date ← Strptime.strptime end_part;
       if date_lt today budget_end_date && date_le cutoff_date end_date
       then Ok (active_grants ++ [g])
       else Ok active_grants)
      (Ok active_grants)
  else Ok active_grants.

(** A row of the report, the [grant_dict] of the source. *)
Record report_record := ReportRecord {
  grant_num : pyval;
  pi_name : pyval;
  title : pyval;
  org_name : pyval;
  fy : pyval;
  award_amount : pystr;
  start_date : pystr;
  end_date : pystr;
  budget_start : pystr;
  budget_end : pystr
}.

(** [grant.get("organization", {}).get("org_name", "N/A")] *)
Definition get_org_name (g : grant) : result pyval :=
  match g !! str "organization" with
  | None => Ok (PyStr (str "N/A"))
  | Some (PyDict d) => Ok (dict_get_default d "org_name" (PyStr (str "N/A")))
  | Some _ => Raise AttributeError
  end.

(** The body of the second loop: one active record becomes one row,
    appended to [grant_list]. *)
Definition project_body (grant_list : list report_record) (g : grant)
  : result (list report_record) :=
  let na := PyStr (str "N/A") in
  organization ← get_org_name g;
  start ← format_date (dict_get g "project_start_date");
  finish ← format_date (dict_get g "project_end_date");
  formatted_amount ← format_currency (dict_get g "award_amount");
  b_start ← format_date (dict_get g "budget_start");
  b_end ← format_date (dict_get g "budget_end");
  Ok (grant_list ++
      [ReportRecord (dict_get_default g "project_num" na)
         (dict_get_default g "contact_pi_name" na)
         (dict_get_default g "project_title" na)
         organization
         (dict_get_default g "fiscal_year" na)
         formatted_amount start finish b_start b_end]).

(** [display_funding_info], with the result of [date.today()] as an
    argument: [None], or the list of rows. The printed lines are not
    part of the model. *)
Definition display_funding_info (today : date) (funding_data : list grant)
  : result (option (list report_record)) :=
  match funding_data with
  | [] => Ok None
  | _ =>
      one_year_ago ← date_replace_year today (year today - 1);
      active_grants ← for_each (filter_body today) funding_data [];
      match active_grants with
      | [] => Ok None
      | _ =>
          grant_list ← for_each project_body active_grants [];
          Ok (Some grant_list)
      end
  end.

(** One pass of the roster loop: whom it asks about, what
    [date.today()] is during the pass, and what the service does. *)
Record visit := Visit {
  pi : pystr * pystr;
  clock : date;
  reply : api_outcome
}.

(** The variable [grant_lists] of the main program: not assigned yet,
    or bound to [None] or to a list. *)
Inductive binding :=
| Unbound
| Bound (value : option (list report_record)).

(** The body of the roster loop. *)
Definition roster_body (grant_lists : binding) (v : visit) : result binding :=
  let grants := get_nih_funding (reply v) in
  grant_list ← display_funding_info (clock v) grants;
  match grant_lists with
  | Unbound => Ok (Bound grant_list)
  | Bound target =>
      match grant_list with
      | Some (r :: rs) =>
          match target with
          | Some rows => Ok (Bound (Some (rows ++ r :: rs)))
          | None => Raise AttributeError
          end
      | Some [] | None => Ok grant_lists
      end
  end.

(** The roster loop, from the first pass on. *)
Definition roster_loop (visits : list visit) : result binding :=
  for_each roster_body visits Unbound.

(** The rows [pd.DataFrame(grant_lists)] has after the loop. *)
Definition report (visits : list visit) : result (list report_record) :=
  final ← roster_loop visits;
  match final with
  | Unbound => Raise NameError
  | Bound None => Ok []
  | Bound (Some rows) => Ok rows
  end.

(** ** Definitions that follow the wording of the specification *)

(** The pairs of a sequence that stand at the position of their first
    occurrence, in the order of those positions: entry [i] is kept when
    no earlier entry equals it. *)
Definition first_occurrences (names : list (pystr * pystr))
  : list (pystr * pystr) :=
  (filter (fun ix : nat * (pystr * pystr) => ix.2 ∉ take ix.1 names)
          (imap pair names)).*2.

(** The roster written back as one text: every pair as [Last, First],
    with nothing between one pair and the next. *)
Definition join_roster (roster : list (pystr * pystr)) : pystr :=
  mjoin (map (fun p => p.1 ++ COMMA :: SPACE :: p.2) roster).

Definition starts_with (cls : N -> bool) (s : pystr) : bool :=
  match s with
  | c :: _ => cls c
  | [] => false
  end.

Definition not_space (c : N) : bool := negb (c =? SPACE)%N.

(** A first name as the tokenizer is specified to accept it: letters,
    periods, hyphens and spaces, the spaces only inside. *)
Definition first_name_ok (f : pystr) : bool :=
  forallb first_name_char f && starts_with not_space f
  && starts_with not_space (rev f).

(** A well-formed segment, read from the specification: a capitalized
    last name of letters, apostrophes and hyphens, and a capitalized
    first name. *)
Definition well_formed_segment (seg : pystr * pystr) : bool :=
  forallb last_name_char seg.1 && starts_with is_upper seg.1
  && first_name_ok seg.2 && starts_with is_upper seg.2.

(** A last name of the shape the lookahead recognises: one capital, then
    one or more lowercase letters, apostrophes or hyphens. *)
Definition plain_last_name (l : pystr) : bool :=
  match l with
  | c :: t => is_upper c && starts_with next_last_char t
              && forallb next_last_char t
  | [] => false
  end.

Definition plain_segment (seg : pystr * pystr) : bool :=
  plain_last_name seg.1 && first_name_ok seg.2.

(** What is left of a text after its longest run of [[a-z’\-]]. *)
Fixpoint after_run (s : pystr) : pystr :=
  match s with
  | c :: s' => if next_last_char c then after_run s' else s
  | [] => []
  end.

Definition is_comma (c : N) : bool := (c =? COMMA)%N.

(** A text at which a first name may end: nothing, or the next last
    name in the shape the lookahead asks for, with its comma. *)
Definition boundary (rest : pystr) : bool :=
  match rest with
  | [] => true
  | c :: t =>
      is_upper c && starts_with next_last_char t
      && starts_with is_comma (after_run t)
  end.

(** ** Sample records *)

(** A record written as in a reply: field names and values. *)
Definition field (name : string) (value : pyval) : pystr * pyval :=
  (str name, value).

Definition grant_of (fields : list (pystr * pyval)) : grant :=
  list_to_map fields.

Definition text (s : string) : pyval := PyStr (str s).

(** The records of the boundary example of the specification, looked
    at on 2025-06-01. *)
Definition record_active : grant :=
  grant_of [field "project_num" (text "R01MH000001");
            field "award_amount" (PyInt 1234567);
            field "budget_end" (text "2025-12-31T00:00:00Z");
            field "project_end_date" (text "2026-01-01T00:00:00Z")].

Definition record_ends_before_cutoff : grant :=
  grant_of [field "project_num" (text "R01MH000002");
            field "budget_end" (text "2025-12-31T00:00:00Z");
            field "project_end_date" (text "2025-12-31T00:00:00Z")].

Definition record_budget_lapsed : grant :=
  grant_of [field "project_num" (text "R01MH000003");
            field "budget_end" (text "2025-05-01T00:00:00Z");
            field "project_end_date" (text "2030-06-30T00:00:00Z")].

(** A second active record, a record without the [budget_end] field
    and a record without the [project_end_date] field. *)
Definition record_active_2 : grant :=
  grant_of [field "project_num" (text "R21DA000004");
            field "award_amount" (PyInt 250000);
            field "budget_end" (text "2026-03-31T00:00:00Z");
            field "project_end_date" (text "2028-03-31T00:00:00Z")].

Definition record_no_budget_end : grant :=
  grant_of [field "project_num" (text "R01MH000005");
            field "project_end_date" (text "2027-06-30T00:00:00Z")].

Definition record_no_project_end : grant :=
  grant_of [field "project_num" (text "R01MH000006");
            field "budget_end" (text "2026-06-30T00:00:00Z")].

Definition june_1_2025 : date := Date 2025 6 1.
Definition leap_day_2028 : date := Date 2028 2 29.

(** The rows the two active records are reported as. *)
Definition row_active : report_record :=
  ReportRecord (text "R01MH000001") (text "N/A") (text "N/A") (text "N/A")
    (text "N/A") (str "$1,234,567") (str "N/A") (str "01/01/2026")
    (str "N/A") (str "12/31/2025").

Definition row_active_2 : report_record :=
  ReportRecord (text "R21DA000004") (text "N/A") (text "N/A") (text "N/A")
    (text "N/A") (str "$250,000") (str "N/A") (str "03/31/2028")
    (str "N/A") (str "03/31/2026").

Definition anker : pystr * pystr := (str "Anker", str "Justin").
Definition bishop : pystr * pystr := (str "Bishop", str "Jeffrey").

(** ** Predicates used to state further properties *)

(** A record passes the filter on a day: both end dates are texts that
    parse, the budget ends after the day and the project ends on or
    after the cutoff. *)
Definition passes_filter (today : date) (g : grant) : Prop :=
  ∃ sb sp b p,
    g !! str "budget_end" = Some (PyStr sb)
    ∧ g !! str "project_end_date" = Some (PyStr sp)
    ∧ Strptime.strptime (before_T sb) = Ok b
    ∧ Strptime.strptime (before_T sp) = Ok p
    ∧ date_lt today b = true
    ∧ date_le cutoff_date p = true.






(** * Properties *)

(** ** The duplicate removal *)

Lemma filter_ext_elem {A : Type} (P Q : A → Prop)
    `{!∀ x, Decision (P x), !∀ x, Decision (Q x)} (l : list A) :
  (∀ x, x ∈ l → P x ↔ Q x) → filter P l = filter Q l.
Proof.
  induction l as [|a l IH]; intros Hext; [done|].
  rewrite !filter_cons.
  rewrite IH by (intros x Hx; apply Hext; by right).
  destruct (decide (P a)) as [Ha|Ha], (decide (Q a)) as [Hb|Hb];
    try done; exfalso; apply (Hext a) in Ha || apply (Hext a) in Hb;
    try done; by left.
Qed.

Section Dedup.
Implicit Types (names : list (pystr * pystr)) (x : pystr * pystr).

Lemma dedup_loop_snoc names x :
  dedup_loop (names ++ [x]) = dedup_step (dedup_loop names) x.
Proof. unfold dedup_loop. by rewrite foldl_app. Qed.

(** [seen_names] holds exactly the pairs met so far. *)
Lemma seen_names_spec names x : x ∈ (dedup_loop names).2 ↔ x ∈ names.
Proof.
  induction names as [|y names IH] using rev_ind.
  - cbn. rewrite elem_of_empty, elem_of_nil. tauto.
  - rewrite dedup_loop_snoc, elem_of_app, list_elem_of_singleton.
    unfold dedup_step. case_decide as Hy; cbn.
    + rewrite IH. split; [tauto|]. intros [?| ->]; [done|]. by apply IH.
    + rewrite elem_of_union, elem_of_singleton, IH. tauto.
Qed.

Lemma first_occurrences_snoc names x :
  first_occurrences (names ++ [x])
  = first_occurrences names ++ (if decide (x ∈ names) then [] else [x]).
Proof.
  unfold first_occurrences.
  rewrite imap_app, filter_app, fmap_app. f_equal.
  - f_equal. apply filter_ext_elem. intros [i y] Hin. cbn.
    apply elem_of_lookup_imap in Hin as (j & z & [= -> ->] & Hj).
    rewrite take_app_le; [done|].
    apply lookup_lt_Some in Hj. lia.
  - cbn. rewrite Nat.add_0_r, take_app_length.
    by destruct (decide (x ∉ names)), (decide (x ∈ names)).
Qed.

(** The loop keeps a pair exactly at its first occurrence. *)
Lemma dedup_loop_first names :
  (dedup_loop names).1 = first_occurrences names.
Proof.
  induction names as [|x names IH] using rev_ind; [done|].
  rewrite dedup_loop_snoc, first_occurrences_snoc. unfold dedup_step.
  pose proof (seen_names_spec names x) as Hseen.
  case_decide as Hx; destruct (decide (x ∈ names)) as [Hn|Hn]; cbn;
    rewrite ?app_nil_r, ?IH; tauto.
Qed.

Lemma first_occurrences_elem names x :
  x ∈ first_occurrences names ↔ x ∈ names.
Proof.
  induction names as [|y names IH] using rev_ind; [done|].
  rewrite first_occurrences_snoc, !elem_of_app, IH.
  destruct (decide (y ∈ names)) as [Hy|Hy].
  - rewrite elem_of_nil, list_elem_of_singleton.
    split; [tauto|]. intros [?| ->]; tauto.
  - tauto.
Qed.

Lemma first_occurrences_NoDup names : NoDup (first_occurrences names).
Proof.
  induction names as [|y names IH] using rev_ind; [constructor|].
  rewrite first_occurrences_snoc.
  destruct (decide (y ∈ names)) as [Hy|Hy]; [by rewrite app_nil_r|].
  apply NoDup_app. split; [exact IH|]. split; [|apply NoDup_singleton].
  intros x Hx Hxy. apply list_elem_of_singleton in Hxy as ->.
  rewrite first_occurrences_elem in Hx. contradiction.
Qed.

Lemma first_occurrences_sublist names :
  first_occurrences names `sublist_of` names.
Proof.
  induction names as [|y names IH] using rev_ind; [done|].
  rewrite first_occurrences_snoc.
  destruct (decide (y ∈ names)) as [Hy|Hy].
  - rewrite app_nil_r. by apply sublist_inserts_r.
  - by apply sublist_app.
Qed.

(** C5. For every input sequence of (last, first) pairs the output of
    the duplicate removal has no two equal pairs, is a subsequence of
    the input, holds exactly the pairs of the input, and keeps each
    pair at the position of its first occurrence, so that first
    occurrences stay in their relative order. *)
Theorem unique_name_list_first_occurrences names :
  NoDup (unique_name_list names)
  ∧ unique_name_list names `sublist_of` names
  ∧ (∀ x, x ∈ unique_name_list names ↔ x ∈ names)
  ∧ unique_name_list names = first_occurrences names.
Proof.
  unfold unique_name_list. rewrite dedup_loop_first. split_and!.
  - apply first_occurrences_NoDup.
  - apply first_occurrences_sublist.
  - apply first_occurrences_elem.
  - done.
Qed.
End Dedup.

(** C6. On the text ["Carroll, DanaCarroll, DanaConelea, Christine"] the
    pattern finds Carroll/Dana twice and then Conelea/Christine, the
    trimming leaves the three pairs as they are, and the duplicate
    removal reduces them to Carroll/Dana, Conelea/Christine. *)
Theorem boundary_case_carroll_conelea :
  let found := [(str "Carroll", str "Dana"); (str "Carroll", str "Dana");
                (str "Conelea", str "Christine")] in
  matches (str "Carroll, DanaCarroll, DanaConelea, Christine") = found
  ∧ name_list_with_duplicates
      (str "Carroll, DanaCarroll, DanaConelea, Christine") = found
  ∧ unique_name_list found
    = [(str "Carroll", str "Dana"); (str "Conelea", str "Christine")].
Proof. cbv zeta. split_and!; vm_compute; reflexivity. Qed.

(** ** The tokenizer *)

Ltac bool_to_prop :=
  unfold last_name_char, first_name_char, next_last_char, is_space,
    not_space, is_upper, is_lower, is_digit, in_range,
    COMMA, HYPHEN, PERIOD, SPACE, NEWLINE, RSQUO in *;
  repeat progress
    (rewrite ?negb_true_iff, ?negb_false_iff, ?andb_true_iff, ?orb_true_iff,
       ?andb_false_iff, ?orb_false_iff, ?N.leb_le, ?N.leb_gt, ?N.eqb_eq,
       ?N.eqb_neq in *).

Lemma last_name_char_not_comma c : last_name_char c = true → c ≠ COMMA.
Proof. bool_to_prop. lia. Qed.

Lemma first_name_char_not_comma c : first_name_char c = true → c ≠ COMMA.
Proof. bool_to_prop. lia. Qed.

Lemma first_name_char_not_newline c : first_name_char c = true → c ≠ NEWLINE.
Proof. bool_to_prop. lia. Qed.

Lemma next_last_char_not_comma c : next_last_char c = true → c ≠ COMMA.
Proof. bool_to_prop. lia. Qed.

Lemma upper_not_next_last c : is_upper c = true → next_last_char c = false.
Proof. bool_to_prop. lia. Qed.

Lemma upper_not_comma c : is_upper c = true → c ≠ COMMA.
Proof. bool_to_prop. lia. Qed.

Lemma next_last_is_last_name_char c :
  next_last_char c = true → last_name_char c = true.
Proof. bool_to_prop. lia. Qed.

Lemma upper_is_last_name_char c : is_upper c = true → last_name_char c = true.
Proof. bool_to_prop. lia. Qed.

Lemma last_name_char_not_space c : last_name_char c = true → is_space c = false.
Proof. bool_to_prop. lia. Qed.

Lemma first_name_char_space c :
  first_name_char c = true → not_space c = true → is_space c = false.
Proof. bool_to_prop. lia. Qed.

Section RepeatLemmas.
Context {A : Type} (cls : N → bool).
Implicit Types (m r : pystr) (k : pystr → pystr → option A).

(** A greedy repetition settles on the whole run when the rest of the
    pattern accepts it. *)
Lemma greedy_star_longest m r k a :
  Forall (λ c, cls c = true) m → starts_with cls r = false →
  k m r = Some a → Regex.greedy_star cls (m ++ r) k = Some a.
Proof.
  intros Hm Hr. revert k. induction Hm as [|c m Hc Hm IH]; intros k Hk.
  - destruct r as [|c r]; cbn in *; [done|]. by rewrite Hr.
  - cbn. rewrite Hc. by rewrite (IH (λ m' r', k (c :: m') r')).
Qed.

Lemma greedy_plus_longest m r k a :
  m ≠ [] → Forall (λ c, cls c = true) m → starts_with cls r = false →
  k m r = Some a → Regex.greedy_plus cls (m ++ r) k = Some a.
Proof.
  intros Hne Hm Hr Hk. destruct Hm as [|c m Hc Hm]; [done|].
  cbn. rewrite Hc. by apply (greedy_star_longest m r (λ m' r', k (c :: m') r')).
Qed.

(** A lazy repetition settles on the first prefix that the rest of
    the pattern accepts. *)
Lemma lazy_star_shortest m r k a :
  Forall (λ c, cls c = true) m → k m r = Some a →
  (∀ m1 m2, m = m1 ++ m2 → m2 ≠ [] → k m1 (m2 ++ r) = None) →
  Regex.lazy_star cls (m ++ r) k = Some a.
Proof.
  intros Hm. revert k. induction Hm as [|c m Hc Hm IH]; intros k Hk Hno.
  - destruct r; cbn; by rewrite Hk.
  - pose proof (Hno [] (c :: m) eq_refl) as Hnil.
    cbn in *. rewrite Hnil by done. rewrite Hc.
    apply (IH (λ m' r', k (c :: m') r')); [done|].
    intros m1 m2 -> Hm2. by apply (Hno (c :: m1) m2).
Qed.

Lemma lazy_plus_shortest m r k a :
  m ≠ [] → Forall (λ c, cls c = true) m → k m r = Some a →
  (∀ m1 m2, m = m1 ++ m2 → m1 ≠ [] → m2 ≠ [] → k m1 (m2 ++ r) = None) →
  Regex.lazy_plus cls (m ++ r) k = Some a.
Proof.
  intros Hne Hm Hk Hno. destruct Hm as [|c m Hc Hm]; [done|].
  cbn. rewrite Hc.
  apply (lazy_star_shortest m r (λ m' r', k (c :: m') r')); [done..|].
  intros m1 m2 -> Hm2. by apply (Hno (c :: m1) m2).
Qed.
End RepeatLemmas.

(** The run of the lookahead is followed by a comma exactly when the
    text after the longest run starts with one. *)
Lemma lookahead_run s :
  Regex.greedy_star next_last_char s
    (λ _ r, Regex.lit COMMA r (λ _, Some tt))
  = if starts_with is_comma (after_run s) then Some tt else None.
Proof.
  induction s as [|c s IH]; [done|]. cbn.
  destruct (next_last_char c) eqn:Hc.
  - rewrite IH. destruct (starts_with is_comma (after_run s)); [done|].
    apply next_last_char_not_comma in Hc.
    by destruct (N.eqb_spec c COMMA).
  - cbn. unfold is_comma. by destruct (c =? COMMA)%N.
Qed.

Lemma lookahead_spec c s :
  lookahead (c :: s)
  = boundary (c :: s) || Regex.at_dollar (c :: s).
Proof.
  unfold lookahead, boundary. f_equal. rewrite <-andb_assoc. f_equal.
  destruct s as [|d s]; [done|]. cbn -[after_run].
  destruct (next_last_char d) eqn:Hd; [|done].
  rewrite lookahead_run. cbn. rewrite Hd.
  by destruct (starts_with is_comma (after_run s)).
Qed.

Lemma lookahead_boundary rest : boundary rest = true → lookahead rest = true.
Proof.
  destruct rest as [|c s]; [done|]. intros H. by rewrite lookahead_spec, H.
Qed.

Lemma after_run_first_name m rest :
  Forall (λ c, first_name_char c = true) m →
  rest = [] ∨ starts_with is_upper rest = true →
  starts_with is_comma (after_run (m ++ rest)) = false.
Proof.
  intros Hm Hrest. induction Hm as [|c m Hc Hm IH].
  - destruct Hrest as [->|Hup]; [done|].
    destruct rest as [|d rest]; [done|]. cbn in *.
    rewrite (upper_not_next_last d Hup). cbn.
    apply upper_not_comma in Hup. unfold is_comma. by apply N.eqb_neq.
  - cbn. destruct (next_last_char c); [done|]. cbn.
    apply first_name_char_not_comma in Hc. unfold is_comma. by apply N.eqb_neq.
Qed.

Lemma boundary_upper rest :
  boundary rest = true → rest = [] ∨ starts_with is_upper rest = true.
Proof.
  destruct rest as [|c s]; [by left|]. cbn. intros H. right.
  by destruct (is_upper c).
Qed.

(** Inside a first name the lookahead does not hold. *)
Lemma lookahead_inside m rest :
  m ≠ [] → Forall (λ c, first_name_char c = true) m →
  boundary rest = true → lookahead (m ++ rest) = false.
Proof.
  intros Hne Hm Hrest. destruct Hm as [|c m Hc Hm]; [done|].
  cbn [app]. rewrite lookahead_spec. apply orb_false_iff. split.
  - unfold boundary.
    rewrite (after_run_first_name m rest Hm (boundary_upper rest Hrest)).
    by rewrite andb_false_r.
  - cbn. apply first_name_char_not_newline in Hc.
    destruct (m ++ rest); [|done]. by apply N.eqb_neq.
Qed.

Lemma forallb_Forall (f : N → bool) (s : pystr) :
  forallb f s = true → Forall (λ c, f c = true) s.
Proof.
  induction s as [|c s IH]; cbn; [constructor|].
  intros [Hc Hs]%andb_true_iff. constructor; auto.
Qed.

Lemma plain_last_name_inv L :
  plain_last_name L = true →
  ∃ c t, L = c :: t ∧ is_upper c = true ∧ t ≠ []
         ∧ Forall (λ d, next_last_char d = true) t.
Proof.
  destruct L as [|c t]; [done|]. cbn.
  intros [[Hc Ht]%andb_true_iff Hall]%andb_true_iff.
  exists c, t. split_and!; [done..| |by apply forallb_Forall].
  by destruct t.
Qed.

Lemma plain_last_name_chars L :
  plain_last_name L = true → Forall (λ c, last_name_char c = true) L.
Proof.
  intros (c & t & -> & Hc & _ & Ht)%plain_last_name_inv. constructor.
  - by apply upper_is_last_name_char.
  - eapply Forall_impl; [exact Ht|]. apply next_last_is_last_name_char.
Qed.

Lemma first_name_ok_inv F :
  first_name_ok F = true →
  F ≠ [] ∧ Forall (λ c, first_name_char c = true) F
  ∧ starts_with not_space F = true ∧ starts_with not_space (rev F) = true.
Proof.
  unfold first_name_ok.
  intros [[Hall Hhead]%andb_true_iff Hlast]%andb_true_iff.
  split_and!; [by destruct F|by apply forallb_Forall|done..].
Qed.

(** The text of a plain last name stops a first name. *)
Lemma boundary_join L tail :
  plain_last_name L = true → boundary (L ++ COMMA :: tail) = true.
Proof.
  intros (c & t & -> & Hc & Hne & Ht)%plain_last_name_inv.
  cbn -[after_run]. rewrite Hc. cbn -[after_run].
  apply andb_true_iff. split.
  - destruct Ht as [|d t Hd Ht]; [done|]. exact Hd.
  - clear Hne. induction Ht as [|d t Hd Ht IH]; [done|].
    cbn. by rewrite Hd.
Qed.

(** One attempt of the pattern at the start of a plain segment finds
    exactly that segment. *)
Lemma pattern_segment L F rest :
  plain_last_name L = true → first_name_ok F = true →
  boundary rest = true →
  pattern (L ++ COMMA :: SPACE :: F ++ rest)
  = Some (L, F, (length L + 1 + 1 + length F)%nat).
Proof.
  intros HL (HFne & HF & HFhead & _)%first_name_ok_inv Hrest.
  pose proof (plain_last_name_chars L HL) as HLchars.
  apply plain_last_name_inv in HL as (c & t & HLeq & _).
  unfold pattern.
  apply greedy_plus_longest; [by rewrite HLeq|done|done|].
  cbn [Regex.lit]. rewrite N.eqb_refl.
  apply (greedy_star_longest is_space [SPACE] (F ++ rest)).
  { by repeat constructor. }
  { destruct F as [|d F]; [done|]. cbn in *.
    apply Forall_cons in HF as [Hd _]. by apply first_name_char_space. }
  apply lazy_plus_shortest; [done..| |].
  - by rewrite (lookahead_boundary rest Hrest).
  - intros m1 m2 -> Hm1 Hm2. apply Forall_app in HF as [_ HF2].
    by rewrite (lookahead_inside m2 rest Hm2 HF2 Hrest).
Qed.

Lemma findall_from_skip a r :
  findall_from (length a) (a ++ r) = findall_from 0 r.
Proof. induction a as [|c a IH]; [done|]. exact IH. Qed.

Lemma join_roster_cons seg segs :
  join_roster (seg :: segs)
  = seg.1 ++ COMMA :: SPACE :: seg.2 ++ join_roster segs.
Proof. unfold join_roster. cbn. by rewrite <-app_assoc. Qed.

Lemma boundary_join_roster segs :
  forallb plain_segment segs = true → boundary (join_roster segs) = true.
Proof.
  destruct segs as [|[L F] segs]; [done|]. cbn [forallb].
  intros [[HL _]%andb_true_iff _]%andb_true_iff.
  rewrite join_roster_cons. by apply boundary_join.
Qed.

(** On plain segments written one after the other the scan finds the
    segments back. *)
Lemma matches_join_roster segs :
  forallb plain_segment segs = true → matches (join_roster segs) = segs.
Proof.
  induction segs as [|[L F] segs IH]; [done|]. cbn [forallb].
  intros [[HL HF]%andb_true_iff Hsegs]%andb_true_iff.
  rewrite join_roster_cons. cbn [fst snd] in *.
  pose proof (pattern_segment L F (join_roster segs) HL HF
                (boundary_join_roster segs Hsegs)) as Hpat.
  apply plain_last_name_inv in HL as (c & t & -> & _).
  unfold matches in *. cbn [app findall_from] in *. rewrite Hpat.
  f_equal.
  replace (pred (length (c :: t) + 1 + 1 + length F))
    with (length (t ++ COMMA :: SPACE :: F))
    by (rewrite length_app; cbn; lia).
  replace (t ++ COMMA :: SPACE :: F ++ join_roster segs)
    with ((t ++ COMMA :: SPACE :: F) ++ join_roster segs)
    by (by rewrite <-app_assoc).
  rewrite findall_from_skip. by apply IH.
Qed.

Lemma lstrip_noop s : starts_with is_space s = false → lstrip s = s.
Proof. destruct s as [|c s]; [done|]. cbn. by intros ->. Qed.

Lemma strip_noop s :
  starts_with is_space s = false → starts_with is_space (rev s) = false →
  strip s = s.
Proof.
  intros Hhead Hlast. unfold strip, rstrip.
  rewrite (lstrip_noop s Hhead), (lstrip_noop (rev s) Hlast).
  apply rev_involutive.
Qed.

Lemma starts_with_Forall (f g : N → bool) (s : pystr) :
  Forall (λ c, f c = true) s → (∀ c, f c = true → g c = false) →
  starts_with g s = false.
Proof. intros [|c s' Hc _] Hfg; [done|]. cbn. by apply Hfg. Qed.

Lemma strip_plain_last_name L : plain_last_name L = true → strip L = L.
Proof.
  intros HL%plain_last_name_chars. apply strip_noop.
  - eapply starts_with_Forall; [exact HL|apply last_name_char_not_space].
  - eapply starts_with_Forall; [by apply Forall_rev|].
    apply last_name_char_not_space.
Qed.

Lemma starts_with_not_space (s : pystr) :
  Forall (λ c, first_name_char c = true) s →
  starts_with not_space s = true → starts_with is_space s = false.
Proof.
  intros [|c s' Hc _]; [done|]. cbn. by apply first_name_char_space.
Qed.

Lemma strip_first_name_ok F : first_name_ok F = true → strip F = F.
Proof.
  intros (_ & HF & Hhead & Hlast)%first_name_ok_inv. apply strip_noop.
  - by apply starts_with_not_space.
  - apply starts_with_not_space; [by apply Forall_rev|done].
Qed.

Lemma name_list_join_roster segs :
  forallb plain_segment segs = true →
  name_list_with_duplicates (join_roster segs) = segs.
Proof.
  intros Hsegs. unfold name_list_with_duplicates.
  rewrite (matches_join_roster segs Hsegs).
  induction segs as [|[L F] segs IH]; [done|]. cbn [forallb] in Hsegs.
  apply andb_true_iff in Hsegs as [[HL HF]%andb_true_iff Hsegs].
  cbn [map fst snd] in *.
  by rewrite (strip_plain_last_name L HL), (strip_first_name_ok F HF), IH.
Qed.

(** C7, as amended. When every last name is one capital letter followed
    by one or more lowercase letters, apostrophes or hyphens, and every
    first name is a non-empty run of letters, periods, hyphens and
    interior spaces, the tokenizer finds exactly the pairs that were
    written, and writing its roster back as one text and tokenizing it
    again yields the same roster. *)
Theorem tokenizer_round_trip_plain segs :
  forallb plain_segment segs = true →
  name_list_with_duplicates (join_roster segs) = segs
  ∧ let roster := name_list_with_duplicates (join_roster segs) in
    name_list_with_duplicates (join_roster roster) = roster.
Proof.
  intros Hsegs. cbv zeta.
  by rewrite !(name_list_join_roster segs Hsegs).
Qed.

Lemma tokenizer_round_trip_plain_witness :
  let segs := [(str "Carroll", str "Dana"); (str "Redish", str "A. David");
               (str "Schallmo", str "Michael-Paul")] in
  forallb plain_segment segs = true
  ∧ name_list_with_duplicates (join_roster segs) = segs
  ∧ let roster := name_list_with_duplicates (join_roster segs) in
    name_list_with_duplicates (join_roster roster) = roster.
Proof.
  cbv zeta. split; [reflexivity|].
  apply (tokenizer_round_trip_plain
           [(str "Carroll", str "Dana"); (str "Redish", str "A. David");
            (str "Schallmo", str "Michael-Paul")]).
  reflexivity.
Defined.

(** C7, as stated, fails. The three segments Anker/Justin, Smith/John
    and O’Brien/Pat are capitalized names of the admitted characters.
    In their concatenation the scan finds Anker/Justin and then
    JohnO’Brien/Pat; written back, the two pairs tokenize to the single
    pair JustinJohnO’Brien/Pat. *)
Lemma tokenizer_round_trip_fails :
  let segs := [(str "Anker", str "Justin"); (str "Smith", str "John");
               (str "O’Brien", str "Pat")] in
  let roster := name_list_with_duplicates (join_roster segs) in
  forallb well_formed_segment segs = true
  ∧ join_roster segs = str "Anker, JustinSmith, JohnO’Brien, Pat"
  ∧ roster = [(str "Anker", str "Justin"); (str "JohnO’Brien", str "Pat")]
  ∧ name_list_with_duplicates (join_roster roster)
    = [(str "JustinJohnO’Brien", str "Pat")]
  ∧ name_list_with_duplicates (join_roster roster) ≠ roster.
Proof.
  cbv zeta. split_and!; [reflexivity..|]. vm_compute. discriminate.
Qed.

(** On the text of the script itself the scan passes over the first
    segment, whose last name starts in lowercase, and reads the first
    name of that segment into the last name of the next pair. *)
Example raw_data_first_match :
  head (matches raw_data) = Some (str "Mustafaal’Absi", str "Mustafa").
Proof. vm_compute. reflexivity. Qed.

(** ** The active-grant filter *)

Arguments Strptime.strptime : simpl never.
Arguments before_T : simpl never.
Arguments date_lt : simpl never.
Arguments date_le : simpl never.

Lemma strptime_nonempty s d : Strptime.strptime s = Ok d → s ≠ [].
Proof. by destruct s. Qed.

Lemma before_T_nonempty s : before_T s ≠ [] → s ≠ [].
Proof. by destruct s. Qed.

(** The time of day is discarded: only the text before the [T] counts. *)
Lemma before_T_time d t :
  Forall (λ c, c ≠ LETTER_T) d → before_T (d ++ LETTER_T :: t) = d.
Proof.
  induction 1 as [|c d Hc Hd IH]; [by cbv; rewrite ?N.eqb_refl|].
  cbn [app]. unfold before_T in *; fold before_T in *.
  destruct (N.eqb_spec c LETTER_T); [done|]. by rewrite IH.
Qed.

(** [strptime] returns a date or raises [ValueError], nothing else. *)
Lemma strptime_raises s e : Strptime.strptime s = Raise e → e = ValueError.
Proof.
  unfold Strptime.strptime, date_new.
  repeat (case_match; try congruence).
Qed.

(** The loop body on a record whose two dates parse. *)
Lemma filter_body_dates (today : date) (active_grants : list grant)
    (g : grant) (sb sp : pystr) (b p : date) :
  g !! str "budget_end" = Some (PyStr sb) →
  g !! str "project_end_date" = Some (PyStr sp) →
  Strptime.strptime (before_T sb) = Ok b →
  Strptime.strptime (before_T sp) = Ok p →
  filter_body today active_grants g
  = Ok (if date_lt today b && date_le cutoff_date p
        then active_grants ++ [g] else active_grants).
Proof.
  intros Hb Hp Hsb Hsp.
  unfold filter_body, dict_get, dict_get_default. rewrite Hb, Hp. cbn.
  pose proof Hsp as Hne. apply strptime_nonempty, before_T_nonempty in Hne.
  rewrite bool_decide_eq_false_2 by done. cbn.
  rewrite Hsb. cbn. rewrite Hsp. cbn.
  by destruct (date_lt today b && date_le cutoff_date p).
Qed.

(** The order on dates is the order of the calendar. *)
Lemma date_lt_spec (a b : date) :
  date_lt a b = true ↔
  (year a < year b
   ∨ year a = year b
     ∧ (month a < month b ∨ month a = month b ∧ day a < day b))%Z.
Proof.
  unfold date_lt.
  rewrite !orb_true_iff, !andb_true_iff, !orb_true_iff, !andb_true_iff,
    !Z.ltb_lt, !Z.eqb_eq. tauto.
Qed.

Lemma date_le_spec (a b : date) :
  date_le a b = true ↔ a = b ∨ date_lt a b = true.
Proof.
  unfold date_le. rewrite negb_true_iff, <-not_true_iff_false, !date_lt_spec.
  destruct a as [ya ma da], b as [yb mb db]; cbn. split.
  - intros H.
    destruct (decide (ya = yb ∧ ma = mb ∧ da = db)) as [(-> & -> & ->)|Hne];
      [by left|right; lia].
  - intros [[= -> -> ->]|H]; lia.
Qed.

(** C1. For a record whose budget-end and project-end fields both parse
    (the text before the [T], as [YYYY-MM-DD]), for every date [today]
    and the cutoff 2026-01-01, the filter appends the record to the
    active list exactly when the budget end is later than [today] and
    the project end is on or after the cutoff; otherwise the list is
    left as it is. *)
Theorem filter_body_parsable (today : date) (active_grants : list grant)
    (g : grant) (sb sp : pystr) (b p : date) :
  g !! str "budget_end" = Some (PyStr sb) →
  g !! str "project_end_date" = Some (PyStr sp) →
  Strptime.strptime (before_T sb) = Ok b →
  Strptime.strptime (before_T sp) = Ok p →
  cutoff_date = Date 2026 1 1
  ∧ (date_lt today b = true ∧ date_le cutoff_date p = true →
     filter_body today active_grants g = Ok (active_grants ++ [g]))
  ∧ (¬ (date_lt today b = true ∧ date_le cutoff_date p = true) →
     filter_body today active_grants g = Ok active_grants).
Proof.
  intros Hb Hp Hsb Hsp.
  rewrite (filter_body_dates today active_grants g sb sp b p) by done.
  split_and!; [done| |].
  - by intros [-> ->].
  - intros Hnot. destruct (date_lt today b), (date_le cutoff_date p); try done.
    by destruct Hnot.
Qed.

Lemma filter_body_parsable_witness :
  record_active !! str "budget_end" = Some (text "2025-12-31T00:00:00Z")
  ∧ record_active !! str "project_end_date"
    = Some (text "2026-01-01T00:00:00Z")
  ∧ date_lt june_1_2025 (Date 2025 12 31) = true
  ∧ date_le cutoff_date (Date 2026 1 1) = true
  ∧ filter_body june_1_2025 [] record_active = Ok ([] ++ [record_active]).
Proof.
  split; [vm_compute; reflexivity|]. split; [vm_compute; reflexivity|].
  split; [reflexivity|]. split; [reflexivity|].
  apply (filter_body_parsable june_1_2025 [] record_active
           (str "2025-12-31T00:00:00Z") (str "2026-01-01T00:00:00Z")
           (Date 2025 12 31) (Date 2026 1 1));
    try (vm_compute; reflexivity).
  split; reflexivity.
Defined.

(** Evaluates the loop body on a sample record whose two dates parse:
    the texts and the dates are given, the look-ups are computed. *)
Ltac filter_body_sample sb sp b p :=
  match goal with
  | |- filter_body ?today ?acc ?g = _ =>
      rewrite (filter_body_dates today acc g (str sb) (str sp) b p);
        [reflexivity|vm_compute; reflexivity..]
  end.

Lemma record_active_kept (acc : list grant) :
  filter_body june_1_2025 acc record_active = Ok (acc ++ [record_active]).
Proof.
  filter_body_sample "2025-12-31T00:00:00Z"%string "2026-01-01T00:00:00Z"%string
    (Date 2025 12 31) (Date 2026 1 1).
Qed.

Lemma record_ends_before_cutoff_dropped (acc : list grant) :
  filter_body june_1_2025 acc record_ends_before_cutoff = Ok acc.
Proof.
  filter_body_sample "2025-12-31T00:00:00Z"%string "2025-12-31T00:00:00Z"%string
    (Date 2025 12 31) (Date 2025 12 31).
Qed.

Lemma record_budget_lapsed_dropped (acc : list grant) :
  filter_body june_1_2025 acc record_budget_lapsed = Ok acc.
Proof.
  filter_body_sample "2025-05-01T00:00:00Z"%string "2030-06-30T00:00:00Z"%string
    (Date 2025 5 1) (Date 2030 6 30).
Qed.

(** The boundary example of the specification: on 2025-06-01 a record
    with budget end 2025-12-31 and project end 2026-01-01 is active, one
    whose project ends 2025-12-31 is not, and one whose budget ended
    2025-05-01 is not. *)
Example active_grant_boundary :
  for_each (filter_body june_1_2025)
    [record_active; record_ends_before_cutoff; record_budget_lapsed] []
  = Ok [record_active].
Proof.
  cbn [for_each]. rewrite record_active_kept. cbn [mbind result_bind].
  rewrite record_ends_before_cutoff_dropped. cbn [mbind result_bind].
  by rewrite record_budget_lapsed_dropped.
Qed.

(** A budget-end text that does not parse leaves the active list as it
    is, whatever the project end. *)
Lemma filter_body_budget_end_unparsable (today : date)
    (active_grants : list grant) (g : grant) (sb : pystr) (e : exn) :
  g !! str "budget_end" = Some (PyStr sb) →
  Strptime.strptime (before_T sb) = Raise e →
  filter_body today active_grants g = Ok active_grants.
Proof.
  intros Hb Hsb. pose proof (strptime_raises _ _ Hsb) as ->.
  unfold filter_body, dict_get. rewrite Hb.
  destruct (truthy _); [|done]. cbn. by rewrite Hsb.
Qed.

(** A project-end text that is present and does not parse leaves the
    active list as it is, when the budget end is a text. *)
Lemma filter_body_project_end_unparsable (today : date)
    (active_grants : list grant) (g : grant) (sb sp : pystr) (e : exn) :
  g !! str "budget_end" = Some (PyStr sb) →
  g !! str "project_end_date" = Some (PyStr sp) →
  Strptime.strptime (before_T sp) = Raise e →
  filter_body today active_grants g = Ok active_grants.
Proof.
  intros Hb Hp Hsp. pose proof (strptime_raises _ _ Hsp) as ->.
  unfold filter_body, dict_get, dict_get_default. rewrite Hb, Hp.
  destruct (truthy _); [|done]. cbn.
  destruct (Strptime.strptime (before_T sb)) as [b|e] eqn:Hsb; cbn.
  - by rewrite Hsp.
  - by rewrite (strptime_raises _ _ Hsb).
Qed.

(** A record without the budget-end field, or with [null] in it, makes
    the loop body raise [AttributeError] whenever the project end is
    not empty: [None] has no [split], and only [ValueError] is caught. *)
Lemma filter_body_budget_end_missing (today : date)
    (active_grants : list grant) (g : grant) :
  dict_get g "budget_end" = PyNone →
  truthy (dict_get_default g "project_end_date" default_end_date) = true →
  filter_body today active_grants g = Raise AttributeError.
Proof. intros Hb Hp. unfold filter_body. by rewrite Hb, Hp. Qed.

(** C3, where the code departs from it. The record has a project end
    and no budget-end field. The loop body raises [AttributeError]
    instead of skipping the record, the exception leaves
    [display_funding_info], and the active record that follows in the
    same reply, which alone would be reported, is never looked at. *)
Theorem missing_budget_end_aborts_batch :
  record_no_budget_end !! str "budget_end" = None
  ∧ filter_body june_1_2025 [] record_no_budget_end = Raise AttributeError
  ∧ for_each (filter_body june_1_2025)
      [record_no_budget_end; record_active] [] = Raise AttributeError
  ∧ display_funding_info june_1_2025 [record_no_budget_end; record_active]
    = Raise AttributeError
  ∧ display_funding_info june_1_2025 [record_active] = Ok (Some [row_active]).
Proof. split_and!; vm_compute; reflexivity. Qed.

Lemma default_end_date_truthy : truthy default_end_date = true.
Proof. vm_compute. reflexivity. Qed.

(** The fallback text reads as 2020-01-01. *)
Lemma default_end_date_parsed :
  (end_part ← split_T_0 default_end_date; Strptime.strptime end_part)
  = Ok (Date 2020 1 1).
Proof. vm_compute. reflexivity. Qed.

(** C4. A record without the project-end field is given the text
    [2020-01-01T12:00:00Z], which reads as 2020-01-01, before the
    cutoff; with a budget end that parses, the record is therefore left
    out of the active list, whatever [today] is. *)
Theorem filter_body_project_end_absent (today : date)
    (active_grants : list grant) (g : grant) (sb : pystr) (b : date) :
  g !! str "project_end_date" = None →
  g !! str "budget_end" = Some (PyStr sb) →
  Strptime.strptime (before_T sb) = Ok b →
  dict_get_default g "project_end_date" default_end_date
  = text "2020-01-01T12:00:00Z"
  ∧ (end_part ← split_T_0 default_end_date; Strptime.strptime end_part)
    = Ok (Date 2020 1 1)
  ∧ date_le cutoff_date (Date 2020 1 1) = false
  ∧ filter_body today active_grants g = Ok active_grants.
Proof.
  intros Hp Hb Hsb. split_and!.
  - unfold dict_get_default. by rewrite Hp.
  - exact default_end_date_parsed.
  - vm_compute. reflexivity.
  - unfold filter_body, dict_get, dict_get_default. rewrite Hp, Hb.
    cbn [default from_option id]. rewrite default_end_date_truthy.
    cbn [split_T_0 mbind result_bind id]. rewrite Hsb.
    cbn [mbind result_bind].
    pose proof default_end_date_parsed as Hd.
    destruct (split_T_0 default_end_date) as [part|]; [|done].
    cbn [mbind result_bind] in *. rewrite Hd. cbn [mbind result_bind].
    replace (date_le cutoff_date (Date 2020 1 1)) with false
      by (vm_compute; reflexivity).
    by rewrite andb_false_r.
Qed.

Lemma filter_body_project_end_absent_witness :
  record_no_project_end !! str "project_end_date" = None
  ∧ filter_body june_1_2025 [] record_no_project_end = Ok [].
Proof.
  split; [vm_compute; reflexivity|].
  apply (filter_body_project_end_absent june_1_2025 [] record_no_project_end
           (str "2026-06-30T00:00:00Z") (Date 2026 6 30));
    vm_compute; reflexivity.
Defined.

(** ** [display_funding_info] *)

Lemma display_funding_info_empty (today : date) :
  display_funding_info today [] = Ok None.
Proof. reflexivity. Qed.

(** When the day has a counterpart a year earlier and the filter keeps
    nothing, the result is [None]. *)
Lemma display_funding_info_none_active (today d : date) (data : list grant) :
  date_replace_year today (year today - 1) = Ok d →
  for_each (filter_body today) data [] = Ok [] →
  display_funding_info today data = Ok None.
Proof.
  intros Hd Hf. unfold display_funding_info.
  destruct data as [|g data]; [done|]. by rewrite Hd, Hf.
Qed.

Lemma project_body_length (g : grant) (acc rows : list report_record) :
  project_body acc g = Ok rows → length rows = S (length acc).
Proof.
  unfold project_body. intros H.
  repeat match type of H with
         | (_ ← ?r; _) = _ => destruct r; cbn [mbind result_bind] in H;
                              [|discriminate]
         end.
  injection H as <-. rewrite length_app. cbn. lia.
Qed.

Lemma project_loop_length (active : list grant) (acc rows : list report_record) :
  for_each project_body active acc = Ok rows →
  length rows = (length acc + length active)%nat.
Proof.
  revert acc. induction active as [|g active IH]; intros acc; cbn [for_each].
  - intros [= <-]. cbn. lia.
  - destruct (project_body acc g) as [acc'|] eqn:Hg;
      cbn [mbind result_bind]; [|discriminate].
    intros ->%IH. apply project_body_length in Hg. cbn. lia.
Qed.

(** A list is returned only when the filter kept a record, and then it
    has one row for every record kept: it is never empty. *)
Lemma display_funding_info_rows (today : date) (data : list grant)
    (rows : list report_record) :
  display_funding_info today data = Ok (Some rows) →
  ∃ active, for_each (filter_body today) data [] = Ok active
            ∧ active ≠ [] ∧ length rows = length active ∧ rows ≠ [].
Proof.
  unfold display_funding_info. destruct data as [|g data]; [done|].
  destruct (date_replace_year _ _) as [d|]; cbn [mbind result_bind]; [|done].
  destruct (for_each (filter_body today) _ _) as [active|];
    cbn [mbind result_bind]; [|done].
  destruct active as [|g' active]; [done|].
  destruct (for_each project_body _ _) as [rows'|] eqn:Hrows;
    cbn [mbind result_bind]; [|done].
  intros [= ->]. apply project_loop_length in Hrows.
  exists (g' :: active). split_and!; [done..|]. by destruct rows.
Qed.

(** C10, where the code departs from it. On 29 February 2028 the
    reply holds one record, whose budget ended in 2025, so that the
    filter keeps nothing. [display_funding_info] does not return [None]:
    [today.replace(year=today.year - 1)] has no 29 February 2027 to
    return and raises [ValueError] before the filter runs. A day
    earlier the same reply gives [None]. On any day, a reply whose only
    record lacks the budget-end field has no record that passes the
    filter either, and the result is [AttributeError], not [None]. *)
Theorem leap_day_raises_instead_of_none :
  for_each (filter_body leap_day_2028) [record_budget_lapsed] [] = Ok []
  ∧ date_replace_year leap_day_2028 (year leap_day_2028 - 1)
    = Raise ValueError
  ∧ display_funding_info leap_day_2028 [record_budget_lapsed]
    = Raise ValueError
  ∧ display_funding_info (Date 2028 2 28) [record_budget_lapsed] = Ok None
  ∧ display_funding_info june_1_2025 [record_no_budget_end]
    = Raise AttributeError.
Proof. split_and!; vm_compute; reflexivity. Qed.

(** ** The roster loop *)

(** [get_nih_funding] turns every failure into the empty list. *)
Lemma get_nih_funding_failure (o : api_outcome) :
  o = RequestException ∨ o = JSONDecodeError ∨ o = OtherException
  ∨ o = Json None ∨ o = Json (Some []) →
  get_nih_funding o = [].
Proof. intros [->|[->|[->|[->| ->]]]]; reflexivity. Qed.

(** Once [grant_lists] is bound, a name whose query fails or finds
    nothing leaves it as it is and the loop goes on. *)
Lemma roster_body_failure (value : option (list report_record)) (v : visit) :
  get_nih_funding (reply v) = [] →
  roster_body (Bound value) v = Ok (Bound value).
Proof. intros H. unfold roster_body. by rewrite H. Qed.

(** Once [grant_lists] is bound to a list, a pass appends the rows of
    its name at the end and changes nothing else. *)
Lemma roster_body_appends (rows : list report_record) (v : visit)
    (grant_list : option (list report_record)) :
  display_funding_info (clock v) (get_nih_funding (reply v)) = Ok grant_list →
  roster_body (Bound (Some rows)) v
  = Ok (Bound (Some (rows ++ default [] grant_list))).
Proof.
  intros H. unfold roster_body. rewrite H. cbn [mbind result_bind].
  destruct grant_list as [[|r rs]|]; cbn; by rewrite ?app_nil_r.
Qed.

(** The first pass binds [grant_lists] to whatever
    [display_funding_info] returned, [None] included. *)
Lemma roster_body_first (v : visit)
    (grant_list : option (list report_record)) :
  display_funding_info (clock v) (get_nih_funding (reply v)) = Ok grant_list →
  roster_body Unbound v = Ok (Bound grant_list).
Proof. intros H. unfold roster_body. by rewrite H. Qed.

(** From a pass that bound [grant_lists] to a list on, the loop only
    appends: the rows of every later name follow, in roster order and,
    for each name, in the order [display_funding_info] gave them. *)
Lemma roster_loop_appends (visits : list visit)
    (lists : list (option (list report_record)))
    (rows : list report_record) :
  Forall2 (λ v grant_list,
             display_funding_info (clock v) (get_nih_funding (reply v))
             = Ok grant_list) visits lists →
  for_each roster_body visits (Bound (Some rows))
  = Ok (Bound (Some (rows ++ mjoin (map (default []) lists)))).
Proof.
  intros H. revert rows.
  induction H as [|v grant_list visits lists Hv _ IH]; intros rows.
  - cbn. by rewrite app_nil_r.
  - cbn [for_each]. rewrite (roster_body_appends rows v grant_list Hv).
    cbn [mbind result_bind]. rewrite IH. cbn. by rewrite app_assoc.
Qed.

(** When the first name has rows, the report is the concatenation of
    the rows of all names in roster order. *)
Lemma report_concat (v : visit) (visits : list visit)
    (rows : list report_record)
    (lists : list (option (list report_record))) :
  display_funding_info (clock v) (get_nih_funding (reply v))
  = Ok (Some rows) →
  Forall2 (λ v' grant_list,
             display_funding_info (clock v') (get_nih_funding (reply v'))
             = Ok grant_list) visits lists →
  report (v :: visits) = Ok (rows ++ mjoin (map (default []) lists)).
Proof.
  intros Hv Hrest. unfold report, roster_loop. cbn [for_each].
  rewrite (roster_body_first v (Some rows) Hv). cbn [mbind result_bind].
  by rewrite (roster_loop_appends visits lists rows Hrest).
Qed.

(** C2, where the code departs from it. The query for the first name
    fails (in transport, in decoding, or by finding nothing) and the
    second name has an active record. The first pass binds
    [grant_lists] to [None]; the second pass calls [extend] on it and
    raises [AttributeError], which ends the batch. Alone, the second
    name is reported. *)
Theorem failure_of_first_name_aborts_batch :
  let second := Visit bishop june_1_2025 (Json (Some [record_active])) in
  roster_loop [Visit anker june_1_2025 RequestException; second]
  = Raise AttributeError
  ∧ roster_loop [Visit anker june_1_2025 JSONDecodeError; second]
    = Raise AttributeError
  ∧ roster_loop [Visit anker june_1_2025 (Json (Some [])); second]
    = Raise AttributeError
  ∧ roster_loop [Visit anker june_1_2025 RequestException]
    = Ok (Bound None)
  ∧ roster_loop [second] = Ok (Bound (Some [row_active])).
Proof. cbv zeta. split_and!; vm_compute; reflexivity. Qed.

(** C8, where the code departs from it. With the two active records
    under the first name and none under the second, the report is the
    two rows in the order of the reply, as the specification says. With
    the names the other way round the report should be the same two
    rows; the first pass has bound [grant_lists] to [None] and the
    second pass raises [AttributeError] instead of appending. *)
Theorem report_lost_after_empty_first_name :
  let two := Json (Some [record_active; record_active_2]) in
  let zero := Json (Some [record_budget_lapsed]) in
  report [Visit anker june_1_2025 two; Visit bishop june_1_2025 zero]
  = Ok [row_active; row_active_2]
  ∧ display_funding_info june_1_2025 (get_nih_funding zero) = Ok None
  ∧ report [Visit anker june_1_2025 zero; Visit bishop june_1_2025 two]
    = Raise AttributeError.
Proof. cbv zeta. split_and!; vm_compute; reflexivity. Qed.

(** ** [format_currency] *)

Lemma format_currency_none : format_currency PyNone = Ok (str "N/A").
Proof. reflexivity. Qed.

(** An amount that is not a number is rendered ["N/A"]. *)
Lemma format_currency_non_numeric (amount : pyval) :
  match amount with
  | PyStr _ | PyList _ | PyDict _ => format_currency amount = Ok (str "N/A")
  | _ => True
  end.
Proof. by destruct amount. Qed.

Example format_currency_example :
  format_currency (PyInt 1234567) = Ok (str "$1,234,567").
Proof. vm_compute. reflexivity. Qed.

Lemma size_small (a : N) : (a < 2 ^ 53)%N → (N.size a - 53 = 0)%N.
Proof.
  intros Ha. apply N.sub_0_le.
  destruct (N.le_gt_cases (N.size a) 53) as [|Hgt]; [done|].
  exfalso. pose proof (N.size_le a) as Hle.
  assert (2 ^ 54 <= 2 ^ N.size a)%N by (apply N.pow_le_mono_r; lia).
  assert (2 ^ 54 = 2 * 2 ^ 53)%N by reflexivity. lia.
Qed.

(** An [int] below [2^53] in magnitude is a double itself, and is
    rendered with its own digits: a dollar sign, a minus sign when it is
    negative, and the digits in groups of three. *)
Lemma format_currency_exact (z : Z) :
  (Z.abs z < 2 ^ 53)%Z →
  format_currency (PyInt z)
  = Ok (str "$" ++ Float.sign (z <? 0)%Z
        ++ Float.thousands (decimal (Z.abs_N z))).
Proof.
  intros Hz.
  assert (Z.abs_N z < 2 ^ 53)%N as Ha by lia.
  unfold format_currency, format_comma_0f, Float.of_int.
  rewrite (size_small _ Ha). cbn [Float.shift_round N.eqb].
  rewrite N.shiftl_0_r.
  assert ((N.shiftl 1 1024 <=? Z.abs_N z)%N = false) as ->.
  { apply N.leb_gt. rewrite N.shiftl_1_l.
    eapply N.lt_trans; [exact Ha|]. by apply N.pow_lt_mono_r. }
  cbn [mbind result_bind Float.format_comma_0f Float.round_0 Z.of_N Z.leb
       Z.compare Z.to_N].
  by rewrite N.shiftl_0_r.
Qed.

(** C9, where the code departs from it. The amount [10^400] is an
    [int], a numeric amount. Formatting it with [,.0f] converts it to
    [float] first, which raises [OverflowError]; [format_currency]
    catches [ValueError] and [TypeError] only, so that it neither
    renders the amount nor returns ["N/A"]. The same conversion makes
    [2^53 + 1] come out as the digits of [2^53]. The amounts of the
    specification's examples are rendered as it says. *)
Theorem format_currency_overflow :
  format_currency (PyInt (10 ^ 400)) = Raise OverflowError
  ∧ format_currency (PyInt (2 ^ 53 + 1))
    = Ok (str "$9,007,199,254,740,992")
  ∧ format_currency (PyInt 1234567) = Ok (str "$1,234,567")
  ∧ format_currency PyNone = Ok (str "N/A")
  ∧ format_currency (text "1234567") = Ok (str "N/A").
Proof. split_and!; vm_compute; reflexivity. Qed.


(** * Further properties *)

(** ** What the pattern can match *)

Section RepeatInversion.
Context {A : Type} (cls : N → bool).
Implicit Types (m r s : pystr) (k : pystr → pystr → option A).

(** Whatever a repetition hands to the rest of the pattern is a run of
    the class at the start of the text. *)
Lemma greedy_star_inv s k a :
  Regex.greedy_star cls s k = Some a →
  ∃ m r, s = m ++ r ∧ Forall (λ c, cls c = true) m ∧ k m r = Some a.
Proof.
  revert k. induction s as [|c s IH]; intros k; cbn.
  - intros H. by exists [], [].
  - destruct (cls c) eqn:Hc; [|intros H; by exists [], (c :: s)].
    destruct (Regex.greedy_star cls s _) as [a'|] eqn:Hin.
    + intros [= ->]. apply IH in Hin as (m & r & -> & Hm & Hk).
      exists (c :: m), r. split_and!; [done|by constructor|done].
    + intros H. by exists [], (c :: s).
Qed.

Lemma greedy_plus_inv s k a :
  Regex.greedy_plus cls s k = Some a →
  ∃ m r, s = m ++ r ∧ m ≠ [] ∧ Forall (λ c, cls c = true) m
         ∧ k m r = Some a.
Proof.
  destruct s as [|c s]; cbn; [done|].
  destruct (cls c) eqn:Hc; [|done].
  intros (m & r & -> & Hm & Hk)%greedy_star_inv.
  exists (c :: m), r. split_and!; [done|done|by constructor|done].
Qed.

Lemma lazy_star_inv s k a :
  Regex.lazy_star cls s k = Some a →
  ∃ m r, s = m ++ r ∧ Forall (λ c, cls c = true) m ∧ k m r = Some a.
Proof.
  revert k. induction s as [|c s IH]; intros k; cbn.
  - destruct (k [] []) eqn:Hk; [|done]. intros [= ->]. by exists [], [].
  - destruct (k [] (c :: s)) eqn:Hk.
    { intros [= ->]. by exists [], (c :: s). }
    destruct (cls c) eqn:Hc; [|done].
    intros (m & r & -> & Hm & Hk')%IH.
    exists (c :: m), r. split_and!; [done|by constructor|done].
Qed.

Lemma lazy_plus_inv s k a :
  Regex.lazy_plus cls s k = Some a →
  ∃ m r, s = m ++ r ∧ m ≠ [] ∧ Forall (λ c, cls c = true) m
         ∧ k m r = Some a.
Proof.
  destruct s as [|c s]; cbn; [done|].
  destruct (cls c) eqn:Hc; [|done].
  intros (m & r & -> & Hm & Hk)%lazy_star_inv.
  exists (c :: m), r. split_and!; [done|done|by constructor|done].
Qed.
End RepeatInversion.

(** A match of the pattern, read back: the text starts with the last
    name, a comma, white space and the first name, and the lookahead
    holds on what follows. *)
Lemma pattern_inv s g1 g2 n :
  pattern s = Some (g1, g2, n) →
  ∃ ws rest,
    s = g1 ++ COMMA :: ws ++ g2 ++ rest
    ∧ g1 ≠ [] ∧ Forall (λ c, last_name_char c = true) g1
    ∧ Forall (λ c, is_space c = true) ws
    ∧ g2 ≠ [] ∧ Forall (λ c, first_name_char c = true) g2
    ∧ lookahead rest = true
    ∧ n = (length g1 + 1 + length ws + length g2)%nat.
Proof.
  unfold pattern.
  intros (m1 & r1 & -> & Hne1 & Hm1 & Hk1)%greedy_plus_inv.
  destruct r1 as [|c r2]; [done|]. cbn [Regex.lit] in Hk1.
  destruct (N.eqb_spec c COMMA) as [->|]; [|done].
  apply greedy_star_inv in Hk1 as (ws & r3 & -> & Hws & Hk3).
  apply lazy_plus_inv in Hk3 as (m2 & r4 & -> & Hne2 & Hm2 & Hk4).
  destruct (lookahead r4) eqn:Hla; [|done].
  injection Hk4 as <- <- <-. by exists ws, r4.
Qed.

(** Every pair the scan yields is a match of the pattern at some
    position of the text. *)
Lemma findall_from_inv skip s p :
  p ∈ findall_from skip s →
  ∃ pre post n, s = pre ++ post ∧ pattern post = Some (p.1, p.2, n).
Proof.
  revert skip. induction s as [|c s IH]; intros skip; cbn [findall_from].
  - by intros ?%elem_of_nil.
  - assert (∀ k, p ∈ findall_from k s →
                 ∃ pre post n, c :: s = pre ++ post
                               ∧ pattern post = Some (p.1, p.2, n)) as Hrec.
    { intros k (pre & post & n & -> & Hp)%IH. by exists (c :: pre), post, n. }
    destruct skip as [|k]; [|apply Hrec].
    destruct (pattern (c :: s)) as [[[g1 g2] n]|] eqn:Hpat; [|apply Hrec].
    intros [->|Hin]%elem_of_cons; [|by eapply Hrec].
    by exists [], (c :: s), n.
Qed.

(** X1. Every pair found by [re.findall] stands in the text as it is
    returned: a non-empty last name of letters, apostrophes and
    hyphens, a comma, white space, a non-empty first name of letters,
    periods, hyphens and spaces, followed by the end of the text or by
    what the lookahead takes for the next last name. *)
Theorem matches_are_in_the_text (raw : pystr) (last first : pystr) :
  (last, first) ∈ matches raw →
  last ≠ [] ∧ Forall (λ c, last_name_char c = true) last
  ∧ first ≠ [] ∧ Forall (λ c, first_name_char c = true) first
  ∧ ∃ pre ws post,
      raw = pre ++ last ++ COMMA :: ws ++ first ++ post
      ∧ Forall (λ c, is_space c = true) ws
      ∧ lookahead post = true.
Proof.
  unfold matches. intros (pre & s & n & -> & Hpat)%findall_from_inv.
  apply pattern_inv in Hpat
    as (ws & rest & -> & Hne1 & Hl & Hws & Hne2 & Hf & Hla & _).
  split_and!; [done..|]. by exists pre, ws, rest.
Qed.

Lemma matches_are_in_the_text_witness :
  (str "Lim", str "Kelvin") ∈ matches (str "Kushner, MattLim, Kelvin")
  ∧ ∃ pre ws post,
      str "Kushner, MattLim, Kelvin"
      = pre ++ str "Lim" ++ COMMA :: ws ++ str "Kelvin" ++ post
      ∧ Forall (λ c, is_space c = true) ws
      ∧ lookahead post = true.
Proof.
  assert ((str "Lim", str "Kelvin")
          ∈ matches (str "Kushner, MattLim, Kelvin")) as Hin.
  { vm_compute. apply list_elem_of_further, list_elem_of_here. }
  split; [exact Hin|].
  apply (matches_are_in_the_text _ _ _ Hin).
Defined.

(** X2. A text without a comma yields no pair at all. *)
Theorem no_comma_no_match (raw : pystr) : COMMA ∉ raw → matches raw = [].
Proof.
  intros Hno. destruct (matches raw) as [|[l f] ms] eqn:Hm; [done|].
  exfalso. apply Hno.
  assert ((l, f) ∈ matches raw) as Hin by (rewrite Hm; left).
  apply findall_from_inv in Hin as (pre & s & n & -> & Hpat).
  apply pattern_inv in Hpat as (ws & rest & -> & _).
  rewrite !elem_of_app. right. right. left.
Qed.

Lemma no_comma_no_match_witness :
  (COMMA ∉ str "Kelvin Lim") ∧ matches (str "Kelvin Lim") = [].
Proof.
  assert (COMMA ∉ str "Kelvin Lim") as Hno.
  { vm_compute. intros H. repeat (apply elem_of_cons in H as [H|H];
      [discriminate H|]). by apply elem_of_nil in H. }
  split; [exact Hno|]. exact (no_comma_no_match _ Hno).
Defined.

Lemma lstrip_snoc (u : pystr) (c : N) :
  is_space c = false → lstrip (u ++ [c]) = lstrip u ++ [c].
Proof.
  intros Hc. induction u as [|d u IH]; cbn; [by rewrite Hc|].
  by destruct (is_space d).
Qed.

Lemma lstrip_head (s : pystr) : starts_with is_space (lstrip s) = false.
Proof.
  induction s as [|c s IH]; [done|]. cbn.
  destruct (is_space c) eqn:Hc; [done|]. cbn. exact Hc.
Qed.

Lemma lstrip_suffix (s : pystr) : ∃ ws, s = ws ++ lstrip s.
Proof.
  induction s as [|c s [ws IH]]; [by exists []|]. cbn.
  destruct (is_space c); [|by exists []].
  exists (c :: ws). cbn. by rewrite <-IH.
Qed.

(** What [strip] returns starts and ends with a character that is not
    white space, and is a piece of the text it was given. *)
Lemma strip_spec (s : pystr) :
  starts_with is_space (strip s) = false
  ∧ starts_with is_space (rev (strip s)) = false
  ∧ ∃ ws1 ws2, s = ws1 ++ strip s ++ ws2.
Proof.
  unfold strip, rstrip. rewrite rev_involutive.
  destruct (lstrip_suffix s) as [ws1 Hs].
  destruct (lstrip_suffix (rev (lstrip s))) as [ws2 Ht].
  split_and!.
  - pose proof (lstrip_head s) as Hhead.
    destruct (lstrip s) as [|c t] eqn:Hl; [done|]. cbn in Hhead.
    cbn [rev]. rewrite (lstrip_snoc (rev t) c Hhead), rev_app_distr. done.
  - apply lstrip_head.
  - exists ws1, (rev ws2). rewrite <-rev_app_distr, <-Ht, rev_involutive.
    exact Hs.
Qed.

(** X3. After the trimming loop no name starts or ends with white
    space; a last name is the matched text itself, and a first name is
    made of the characters of the matched first name. *)
Theorem trimmed_names_have_no_outer_space (raw : pystr) (last first : pystr) :
  (last, first) ∈ name_list_with_duplicates raw →
  last ≠ [] ∧ Forall (λ c, last_name_char c = true) last
  ∧ Forall (λ c, first_name_char c = true) first
  ∧ starts_with is_space last = false
  ∧ starts_with is_space (rev last) = false
  ∧ starts_with is_space first = false
  ∧ starts_with is_space (rev first) = false.
Proof.
  unfold name_list_with_duplicates.
  intros ([l f] & [= -> ->] & Hin)%list_elem_of_fmap.
  apply findall_from_inv in Hin as (pre & s & n & _ & Hpat).
  apply pattern_inv in Hpat
    as (ws & rest & _ & Hne1 & Hl & _ & _ & Hf & _). cbn [fst snd].
  assert (strip l = l) as ->.
  { apply strip_noop.
    - eapply starts_with_Forall; [exact Hl|apply last_name_char_not_space].
    - eapply starts_with_Forall; [by apply Forall_rev|].
      apply last_name_char_not_space. }
  destruct (strip_spec f) as (Hh & Ht & ws1 & ws2 & Hfeq).
  split_and!; [done|done| | | |done|done].
  - rewrite Hfeq in Hf. by apply Forall_app in Hf as [_ [Hf _]%Forall_app].
  - eapply starts_with_Forall; [exact Hl|apply last_name_char_not_space].
  - eapply starts_with_Forall; [by apply Forall_rev|].
    apply last_name_char_not_space.
Qed.

Lemma trimmed_names_have_no_outer_space_witness :
  (str "Smith", str "John") ∈ name_list_with_duplicates (str "Smith, John  ")
  ∧ starts_with is_space (rev (str "John")) = false.
Proof.
  assert ((str "Smith", str "John")
          ∈ name_list_with_duplicates (str "Smith, John  ")) as Hin.
  { vm_compute. apply list_elem_of_here. }
  split; [exact Hin|].
  apply (trimmed_names_have_no_outer_space _ _ _ Hin).
Defined.

(** ** More on the duplicate removal *)

Lemma first_occurrences_app (l1 l2 : list (pystr * pystr)) :
  first_occurrences (l1 ++ l2)
  = first_occurrences l1
    ++ filter (λ x, x ∉ l1) (first_occurrences l2).
Proof.
  induction l2 as [|x l2 IH] using rev_ind.
  - by rewrite !app_nil_r.
  - rewrite app_assoc, !first_occurrences_snoc, IH, filter_app, <-app_assoc.
    f_equal. f_equal.
    destruct (decide (x ∈ l1 ++ l2)) as [Hin|Hin],
             (decide (x ∈ l2)) as [Hin2|Hin2];
      rewrite ?filter_nil, ?filter_cons, ?filter_nil.
    + done.
    + apply elem_of_app in Hin as [Hin|Hin]; [|done].
      by destruct (decide (x ∉ l1)).
    + exfalso. apply Hin, elem_of_app. by right.
    + destruct (decide (x ∉ l1)) as [|Hl1]; [done|].
      exfalso. apply Hl1. intros H1. apply Hin, elem_of_app. by left.
Qed.

Lemma first_occurrences_NoDup_id (l : list (pystr * pystr)) :
  NoDup l → first_occurrences l = l.
Proof.
  induction l as [|x l IH] using rev_ind; [done|].
  intros (Hl & Hx & _)%NoDup_app. rewrite first_occurrences_snoc, IH by done.
  destruct (decide (x ∈ l)) as [Hin|]; [|done].
  exfalso. apply (Hx x Hin). left.
Qed.

(** X4. The duplicate removal of two lists written one after the
    other is the duplicate removal of the first, followed by what the
    duplicate removal of the second keeps that the first list does not
    have. *)
Theorem unique_name_list_app (l1 l2 : list (pystr * pystr)) :
  unique_name_list (l1 ++ l2)
  = unique_name_list l1
    ++ filter (λ x, x ∉ l1) (unique_name_list l2).
Proof.
  unfold unique_name_list. rewrite !dedup_loop_first.
  apply first_occurrences_app.
Qed.

(** X5. Removing duplicates a second time changes nothing, and a list
    without duplicates comes back as it is. *)
Theorem unique_name_list_idempotent (names : list (pystr * pystr)) :
  unique_name_list (unique_name_list names) = unique_name_list names
  ∧ (NoDup names → unique_name_list names = names).
Proof.
  unfold unique_name_list. rewrite !dedup_loop_first. split.
  - apply first_occurrences_NoDup_id, first_occurrences_NoDup.
  - apply first_occurrences_NoDup_id.
Qed.

Lemma unique_name_list_idempotent_witness :
  NoDup [anker; bishop] ∧ unique_name_list [anker; bishop] = [anker; bishop].
Proof.
  assert (NoDup [anker; bishop]) as Hnd.
  { apply NoDup_cons. split; [|apply NoDup_singleton].
    intros H%list_elem_of_singleton. vm_compute in H. discriminate H. }
  split; [exact Hnd|].
  exact (proj2 (unique_name_list_idempotent [anker; bishop]) Hnd).
Defined.

(** ** More on the filter *)

Lemma filter_try_cases (today : date) (acc : list grant) (g : grant)
    (vb ve : pyval) (r : list grant) :
  except_ValueError
    (budget_end_part ← split_T_0 vb;
     budget_end_date ← Strptime.strptime budget_end_part;
     end_part ← split_T_0 ve;
     end_date ← Strptime.strptime end_part;
     if date_lt today budget_end_date && date_le cutoff_date end_date
     then Ok (acc ++ [g]) else Ok acc)
    (Ok acc) = Ok r →
  r = acc
  ∨ (r = acc ++ [g]
     ∧ ∃ sb sp b p,
         vb = PyStr sb ∧ ve = PyStr sp
         ∧ Strptime.strptime (before_T sb) = Ok b
         ∧ Strptime.strptime (before_T sp) = Ok p
         ∧ date_lt today b = true ∧ date_le cutoff_date p = true).
Proof.
  destruct vb as [| | | |sb| |]; cbn [split_T_0 mbind result_bind];
    try discriminate.
  destruct (Strptime.strptime (before_T sb)) as [b|e] eqn:Hsb;
    cbn [mbind result_bind].
  2: { rewrite (strptime_raises _ _ Hsb). cbn. intros [= <-]. by left. }
  destruct ve as [| | | |sp| |]; cbn [split_T_0 mbind result_bind];
    try discriminate.
  destruct (Strptime.strptime (before_T sp)) as [p|e] eqn:Hsp;
    cbn [mbind result_bind].
  2: { rewrite (strptime_raises _ _ Hsp). cbn. intros [= <-]. by left. }
  destruct (date_lt today b) eqn:Hlt, (date_le cutoff_date p) eqn:Hle;
    cbn; intros [= <-]; try (by left).
  right. split; [done|]. by exists sb, sp, b, p.
Qed.

(** The loop body either leaves the list as it is or appends the
    record, and it appends only a record that passes. *)
Lemma filter_body_cases (today : date) (acc : list grant) (g : grant)
    (r : list grant) :
  filter_body today acc g = Ok r →
  r = acc ∨ (r = acc ++ [g] ∧ passes_filter today g).
Proof.
  unfold filter_body, dict_get, dict_get_default.
  destruct (truthy _) eqn:Ht; [|intros [= <-]; by left].
  intros [->|[-> (sb & sp & b & p & Hvb & Hve & Hsb & Hsp & Hlt & Hle)]]
    %filter_try_cases; [by left|right]. split; [done|].
  destruct (g !! str "budget_end") as [vb|] eqn:Hb; cbn in Hvb; [|done].
  destruct (g !! str "project_end_date") as [ve|] eqn:Hp; cbn in Hve.
  - subst. by exists sb, sp, b, p.
  - exfalso. pose proof default_end_date_parsed as Hd.
    unfold default_end_date in Hve, Hd. injection Hve as <-.
    cbn [split_T_0 mbind result_bind] in Hd. rewrite Hsp in Hd.
    injection Hd as ->. vm_compute in Hle. discriminate Hle.
Qed.

Lemma passes_filter_kept (today : date) (acc : list grant) (g : grant) :
  passes_filter today g → filter_body today acc g = Ok (acc ++ [g]).
Proof.
  intros (sb & sp & b & p & Hb & Hp & Hsb & Hsp & Hlt & Hle).
  by rewrite (filter_body_dates today acc g sb sp b p), Hlt, Hle.
Qed.





Lemma date_lt_le_trans (a b c : date) :
  date_le a b = true → date_lt b c = true → date_lt a c = true.
Proof.
  intros [->|Hab]%date_le_spec; [done|]. rewrite !date_lt_spec in *. lia.
Qed.

(** X7. A record that is active on a day is active on every earlier
    day: as the days pass a record can leave the report and cannot
    enter it. *)
Theorem active_on_earlier_days (earlier later : date) (acc : list grant)
    (g : grant) :
  date_le earlier later = true →
  filter_body later acc g = Ok (acc ++ [g]) →
  filter_body earlier acc g = Ok (acc ++ [g]).
Proof.
  intros Hle [Heq|[_ Hpass]]%filter_body_cases.
  - apply (f_equal length) in Heq. rewrite length_app in Heq. cbn in Heq. lia.
  - apply passes_filter_kept.
    destruct Hpass as (sb & sp & b & p & Hb & Hp & Hsb & Hsp & Hlt & Hcut).
    exists sb, sp, b, p. split_and!; [done..| |done].
    by apply (date_lt_le_trans earlier later b).
Qed.

Lemma active_on_earlier_days_witness :
  date_le (Date 2025 1 15) june_1_2025 = true
  ∧ filter_body (Date 2025 1 15) [] record_active = Ok ([] ++ [record_active]).
Proof.
  split; [reflexivity|].
  apply (active_on_earlier_days (Date 2025 1 15) june_1_2025 [] record_active);
    [reflexivity|apply record_active_kept].
Defined.

(** ** More on [display_funding_info] *)













(** ** More on the roster loop *)

(** X10. When the first name of the roster has rows and no call
    raises, the report is the rows of all names written one after the
    other, in roster order and for each name in the order
    [display_funding_info] returned them; a name without rows adds
    nothing. *)
Theorem report_is_concatenation (v : visit) (visits : list visit)
    (rows : list report_record)
    (lists : list (option (list report_record))) :
  display_funding_info (clock v) (get_nih_funding (reply v))
  = Ok (Some rows) →
  Forall2 (λ v' grant_list,
             display_funding_info (clock v') (get_nih_funding (reply v'))
             = Ok grant_list) visits lists →
  report (v :: visits) = Ok (rows ++ mjoin (map (default []) lists)).
Proof. apply report_concat. Qed.

Lemma report_is_concatenation_witness :
  report [Visit anker june_1_2025 (Json (Some [record_active]));
          Visit bishop june_1_2025 RequestException;
          Visit anker june_1_2025 (Json (Some [record_active_2]))]
  = Ok ([row_active] ++ mjoin (map (default []) [None; Some [row_active_2]])).
Proof.
  apply (report_is_concatenation
           (Visit anker june_1_2025 (Json (Some [record_active])))
           [Visit bishop june_1_2025 RequestException;
            Visit anker june_1_2025 (Json (Some [record_active_2]))]
           [row_active] [None; Some [row_active_2]]).
  - vm_compute. reflexivity.
  - repeat constructor; vm_compute; reflexivity.
Defined.

Lemma roster_body_none (v : visit)
    (grant_list : option (list report_record)) :
  display_funding_info (clock v) (get_nih_funding (reply v)) = Ok grant_list →
  roster_body (Bound None) v
  = match grant_list with
    | Some (_ :: _) => Raise AttributeError
    | _ => Ok (Bound None)
    end.
Proof.
  intros H. unfold roster_body. rewrite H. cbn [mbind result_bind].
  by destruct grant_list as [[|r rs]|].
Qed.

Lemma roster_loop_from_none (visits : list visit)
    (lists : list (option (list report_record))) :
  Forall2 (λ v grant_list,
             display_funding_info (clock v) (get_nih_funding (reply v))
             = Ok grant_list) visits lists →
  for_each roster_body visits (Bound None)
  = if forallb (λ grant_list, bool_decide (default [] grant_list = [])) lists
    then Ok (Bound None) else Raise AttributeError.
Proof.
  induction 1 as [|v grant_list visits lists Hv _ IH]; [done|].
  cbn [for_each forallb]. rewrite (roster_body_none v grant_list Hv).
  destruct grant_list as [[|r rs]|]; cbn [default from_option id];
    cbn [mbind result_bind]; [exact IH|done|exact IH].
Qed.

(** X11. When the first name of the roster has no rows, the loop ends
    normally exactly when no later name has rows either, with
    [grant_lists] still [None]; as soon as a later name has rows,
    [grant_lists.extend] is called on [None] and the loop ends in
    [AttributeError]. *)
Theorem roster_loop_after_empty_first (v : visit) (visits : list visit)
    (lists : list (option (list report_record))) :
  display_funding_info (clock v) (get_nih_funding (reply v)) = Ok None →
  Forall2 (λ v' grant_list,
             display_funding_info (clock v') (get_nih_funding (reply v'))
             = Ok grant_list) visits lists →
  roster_loop (v :: visits)
  = if forallb (λ grant_list, bool_decide (default [] grant_list = [])) lists
    then Ok (Bound None) else Raise AttributeError.
Proof.
  intros Hv Hrest. unfold roster_loop. cbn [for_each].
  rewrite (roster_body_first v None Hv). cbn [mbind result_bind].
  by apply roster_loop_from_none.
Qed.

Lemma roster_loop_after_empty_first_witness :
  roster_loop [Visit anker june_1_2025 JSONDecodeError;
               Visit bishop june_1_2025 (Json (Some [record_budget_lapsed]))]
  = Ok (Bound None).
Proof.
  apply (roster_loop_after_empty_first
           (Visit anker june_1_2025 JSONDecodeError)
           [Visit bishop june_1_2025 (Json (Some [record_budget_lapsed]))]
           [None]).
  - reflexivity.
  - repeat constructor; vm_compute; reflexivity.
Defined.

(** ** [format_date] *)


Lemma is_digit_In (c : N) :
  is_digit c = true → In c [48; 49; 50; 51; 52; 53; 54; 55; 56; 57]%N.
Proof.
  unfold is_digit, in_range. intros [H1 H2]%andb_true_iff.
  apply N.leb_le in H1, H2.
  assert (c = 48 ∨ c = 49 ∨ c = 50 ∨ c = 51 ∨ c = 52 ∨ c = 53 ∨ c = 54
          ∨ c = 55 ∨ c = 56 ∨ c = 57)%N as Hc by lia.
  cbn. intuition.
Qed.

(** Two digits read as a month and two digits read as a day. *)
Lemma month_day_two_digits (m1 m2 d1 d2 : N) :
  is_digit m1 = true → is_digit m2 = true →
  is_digit d1 = true → is_digit d2 = true →
  (1 <= 10 * Strptime.digit m1 + Strptime.digit m2 <= 12)%Z →
  (1 <= 10 * Strptime.digit d1 + Strptime.digit d2 <= 31)%Z →
  Strptime.month_day [m1; m2; HYPHEN; d1; d2]
  = Some ((10 * Strptime.digit m1 + Strptime.digit m2)%Z,
          (10 * Strptime.digit d1 + Strptime.digit d2)%Z, []).
Proof.
  intros Hm1%is_digit_In Hm2%is_digit_In Hd1%is_digit_In Hd2%is_digit_In
    Hm Hd.
  set (digits := [48; 49; 50; 51; 52; 53; 54; 55; 56; 57]%N) in *.
  set (ok := λ m1 m2 d1 d2 : N,
         let m := (10 * Strptime.digit m1 + Strptime.digit m2)%Z in
         let d := (10 * Strptime.digit d1 + Strptime.digit d2)%Z in
         implb ((1 <=? m)%Z && (m <=? 12)%Z && (1 <=? d)%Z && (d <=? 31)%Z)
               (bool_decide (Strptime.month_day [m1; m2; HYPHEN; d1; d2]
                             = Some (m, d, [])))).
  assert (forallb (λ a, forallb (λ b, forallb (λ c,
            forallb (λ d, ok a b c d) digits) digits) digits) digits = true)
    as Hall by (vm_compute; reflexivity).
  pose proof (proj1 (forallb_forall _ _) Hall m1 Hm1) as H1.
  pose proof (proj1 (forallb_forall _ _) H1 m2 Hm2) as H2.
  pose proof (proj1 (forallb_forall _ _) H2 d1 Hd1) as H3.
  pose proof (proj1 (forallb_forall _ _) H3 d2 Hd2) as H4.
  unfold ok in H4. cbv zeta in H4.
  assert (((1 <=? 10 * Strptime.digit m1 + Strptime.digit m2)%Z
           && (10 * Strptime.digit m1 + Strptime.digit m2 <=? 12)%Z
           && (1 <=? 10 * Strptime.digit d1 + Strptime.digit d2)%Z
           && (10 * Strptime.digit d1 + Strptime.digit d2 <=? 31)%Z) = true)
    as Hc.
  { rewrite !andb_true_iff, !Z.leb_le. lia. }
  rewrite Hc in H4. cbn [implb] in H4. by apply bool_decide_eq_true in H4.
Qed.

(** Two digits printed back in two places. *)
Lemma zero_pad_two_digits (a b : N) :
  is_digit a = true → is_digit b = true →
  zero_pad 2 (decimal (Z.to_N (10 * Strptime.digit a + Strptime.digit b)))
  = [a; b].
Proof.
  intros Ha%is_digit_In Hb%is_digit_In.
  set (digits := [48; 49; 50; 51; 52; 53; 54; 55; 56; 57]%N) in *.
  set (ok := λ a b : N,
         bool_decide
           (zero_pad 2 (decimal (Z.to_N (10 * Strptime.digit a
                                         + Strptime.digit b)))
            = [a; b])).
  assert (forallb (λ a, forallb (λ b, ok a b) digits) digits = true)
    as Hall by (vm_compute; reflexivity).
  pose proof (proj1 (forallb_forall _ _) Hall a Ha) as H1.
  pose proof (proj1 (forallb_forall _ _) H1 b Hb) as H2.
  by apply bool_decide_eq_true in H2.
Qed.

(** Four digits, the first not zero, printed back as a year. *)
Lemma decimal_four_digits (y1 y2 y3 y4 : N) :
  is_digit y1 = true → is_digit y2 = true →
  is_digit y3 = true → is_digit y4 = true → y1 ≠ 48%N →
  decimal (Z.to_N (1000 * Strptime.digit y1 + 100 * Strptime.digit y2
                   + 10 * Strptime.digit y3 + Strptime.digit y4))
  = [y1; y2; y3; y4].
Proof.
  intros H1%is_digit_In H2%is_digit_In H3%is_digit_In H4%is_digit_In Hnz.
  set (digits := [48; 49; 50; 51; 52; 53; 54; 55; 56; 57]%N) in *.
  set (ok := λ y1 y2 y3 y4 : N,
         (y1 =? 48)%N
         || bool_decide
              (decimal (Z.to_N (1000 * Strptime.digit y1
                                + 100 * Strptime.digit y2
                                + 10 * Strptime.digit y3 + Strptime.digit y4))
               = [y1; y2; y3; y4])).
  assert (forallb (λ a, forallb (λ b, forallb (λ c,
            forallb (λ d, ok a b c d) digits) digits) digits) digits = true)
    as Hall by (vm_compute; reflexivity).
  pose proof (proj1 (forallb_forall _ _) Hall y1 H1) as G1.
  pose proof (proj1 (forallb_forall _ _) G1 y2 H2) as G2.
  pose proof (proj1 (forallb_forall _ _) G2 y3 H3) as G3.
  pose proof (proj1 (forallb_forall _ _) G3 y4 H4) as G4.
  unfold ok in G4. apply orb_true_iff in G4 as [G4|G4].
  - by apply N.eqb_eq in G4.
  - by apply bool_decide_eq_true in G4.
Qed.

Lemma digit_not_T (c : N) : is_digit c = true → c ≠ LETTER_T.
Proof. bool_to_prop. unfold LETTER_T. lia. Qed.

(** X13. A date written [YYYY-MM-DD], alone or followed by [T] and
    anything, with a year from 1000 on and a day that exists, is
    returned as [MM/DD/YYYY] with the same digits. *)
Theorem format_date_rearranges (y1 y2 y3 y4 m1 m2 d1 d2 : N)
    (tail : pystr) :
  Forall (λ c, is_digit c = true) [y1; y2; y3; y4; m1; m2; d1; d2] →
  y1 ≠ 48%N →
  valid_date
    (1000 * Strptime.digit y1 + 100 * Strptime.digit y2
     + 10 * Strptime.digit y3 + Strptime.digit y4)
    (10 * Strptime.digit m1 + Strptime.digit m2)
    (10 * Strptime.digit d1 + Strptime.digit d2) = true →
  tail = [] ∨ (∃ rest, tail = LETTER_T :: rest) →
  format_date
    (PyStr ([y1; y2; y3; y4; HYPHEN; m1; m2; HYPHEN; d1; d2] ++ tail))
  = Ok [m1; m2; 47%N; d1; d2; 47%N; y1; y2; y3; y4].
Proof.
  intros Hdigits Hnz Hvalid Htail.
  repeat (apply Forall_cons in Hdigits as [? Hdigits]).
  assert (before_T ([y1; y2; y3; y4; HYPHEN; m1; m2; HYPHEN; d1; d2] ++ tail)
          = [y1; y2; y3; y4; HYPHEN; m1; m2; HYPHEN; d1; d2]) as Hbefore.
  { assert (Forall (λ c, c ≠ LETTER_T)
              [y1; y2; y3; y4; HYPHEN; m1; m2; HYPHEN; d1; d2]) as Hno.
    { repeat constructor; try (by apply digit_not_T); done. }
    destruct Htail as [->|[rest ->]]; [|by apply before_T_time].
    rewrite app_nil_r. clear -Hno.
    induction Hno as [|c l Hc _ IH]; [done|].
    unfold before_T; fold before_T.
    destruct (N.eqb_spec c LETTER_T); [done|]. by rewrite IH. }
  unfold format_date. cbn [app truthy negb].
  rewrite bool_decide_eq_false_2 by done. cbn [negb].
  cbn [app] in Hbefore. rewrite Hbefore.
  assert (Hv := Hvalid). unfold valid_date in Hv.
  repeat (apply andb_true_iff in Hv as [Hv ?]).
  repeat match goal with H : (_ <=? _)%Z = true |- _ => apply Z.leb_le in H end.
  assert (days_in_month
            (1000 * Strptime.digit y1 + 100 * Strptime.digit y2
             + 10 * Strptime.digit y3 + Strptime.digit y4)
            (10 * Strptime.digit m1 + Strptime.digit m2) <= 31)%Z as Hdim.
  { unfold days_in_month. repeat case_match; lia. }
  unfold Strptime.strptime.
  replace (is_digit y1 && is_digit y2 && is_digit y3 && is_digit y4
           && (HYPHEN =? HYPHEN)%N) with true
    by (by repeat match goal with H : is_digit _ = true |- _ => rewrite H end).
  rewrite month_day_two_digits by (done || lia).
  unfold date_new. rewrite Hvalid.
  cbn [mbind result_bind except_ValueError].
  unfold strftime_mdy. cbn [year month day].
  rewrite !zero_pad_two_digits, decimal_four_digits by done.
  reflexivity.
Qed.

Lemma format_date_rearranges_witness :
  format_date (text "2026-01-31T00:00:00Z") = Ok (str "01/31/2026").
Proof.
  apply (format_date_rearranges 50 48 50 54 48 49 51 49 (str "T00:00:00Z")).
  - repeat constructor.
  - discriminate.
  - reflexivity.
  - right. by eexists.
Defined.

Lemma strptime_valid (s : pystr) (d : date) :
  Strptime.strptime s = Ok d →
  valid_date (year d) (month d) (day d) = true.
Proof.
  unfold Strptime.strptime, date_new.
  repeat (case_match; try congruence). by intros [= <-].
Qed.

Lemma before_T_cons (c : N) (s : pystr) :
  c ≠ LETTER_T → before_T (c :: s) = c :: before_T s.
Proof.
  intros Hc. unfold before_T; fold before_T.
  by destruct (N.eqb_spec c LETTER_T).
Qed.

(** What [strftime] prints has a slash in third place, so that it does
    not read as a date again. *)
Lemma strptime_strftime_fails (d : date) :
  valid_date (year d) (month d) (day d) = true →
  strftime_mdy d ≠ []
  ∧ Strptime.strptime (before_T (strftime_mdy d)) = Raise ValueError.
Proof.
  intros Hv. unfold valid_date in Hv.
  repeat (apply andb_true_iff in Hv as [Hv ?]).
  repeat match goal with H : (_ <=? _)%Z = true |- _ => apply Z.leb_le in H end.
  assert (∃ a b, zero_pad 2 (decimal (Z.to_N (month d))) = [a; b]
                 ∧ is_digit a = true ∧ is_digit b = true)
    as (a & b & Hpad & Ha & Hb).
  { assert (month d = 1 ∨ month d = 2 ∨ month d = 3 ∨ month d = 4
            ∨ month d = 5 ∨ month d = 6 ∨ month d = 7 ∨ month d = 8
            ∨ month d = 9 ∨ month d = 10 ∨ month d = 11 ∨ month d = 12)%Z
      as Hm by lia.
    repeat (destruct Hm as [->|Hm]); try rewrite Hm;
      eexists _, _; (split; [vm_compute; reflexivity|split; reflexivity]). }
  unfold strftime_mdy. rewrite Hpad.
  replace (str "/") with [47%N] by reflexivity. cbn [app]. split; [done|].
  rewrite !before_T_cons by first [by apply digit_not_T | done].
  unfold Strptime.strptime.
  destruct (before_T _) as [|x1 [|x2 x]]; [done..|]. cbv beta iota.
  replace (is_digit 47) with false by reflexivity.
  by rewrite Ha, Hb.
Qed.

(** X14. What [format_date] returns is left unchanged when it is
    formatted again: ["N/A"], a date already written [MM/DD/YYYY], and
    a text that was passed through because it did not parse. *)
Theorem format_date_idempotent (v : pyval) (out : pystr) :
  format_date v = Ok out → format_date (PyStr out) = Ok out.
Proof.
  unfold format_date at 1. destruct (negb (truthy v)) eqn:Ht.
  { intros [= <-]. vm_compute. reflexivity. }
  destruct v as [| | | |s| |]; try done.
  destruct (Strptime.strptime (before_T s)) as [d|e] eqn:Hs;
    cbn [mbind result_bind except_ValueError].
  - intros [= <-].
    destruct (strptime_strftime_fails d (strptime_valid _ _ Hs)) as [Hne Hf].
    unfold format_date. cbn [truthy].
    rewrite bool_decide_eq_false_2 by done. cbn [negb].
    by rewrite Hf.
  - rewrite (strptime_raises _ _ Hs). intros [= <-].
    unfold format_date. rewrite Ht, Hs.
    by rewrite (strptime_raises _ _ Hs).
Qed.

Lemma format_date_idempotent_witness :
  format_date (text "2026-01-31T00:00:00Z") = Ok (str "01/31/2026")
  ∧ format_date (text "01/31/2026") = Ok (str "01/31/2026").
Proof.
  assert (format_date (text "2026-01-31T00:00:00Z") = Ok (str "01/31/2026"))
    as H by (vm_compute; reflexivity).
  split; [exact H|]. exact (format_date_idempotent _ _ H).
Defined.

(** ** [format_currency]: which amounts it renders, and how *)

(** Rounding to 53 bits gives the quotient or the one above it. *)
Lemma shift_round_bounds (a sh : N) :
  sh ≠ 0%N →
  (N.shiftr a sh ≤ Float.shift_round a sh ≤ N.shiftr a sh + 1)%N.
Proof.
  intros Hsh. unfold Float.shift_round. cbv zeta.
  destruct (N.eqb_spec sh 0); [done|].
  destruct (_ || _); lia.
Qed.

(** The conversion of an [int] to [float] overflows from
    [2^1024 - 2^970] on, the first [int] that rounds to [2^1024]. *)
Lemma of_int_overflow_iff (z : Z) :
  Float.of_int z = Raise OverflowError ↔ (2 ^ 1024 - 2 ^ 970 ≤ Z.abs z)%Z.
Proof.
  unfold Float.of_int. cbv zeta.
  set (a := Z.abs_N z).
  replace (Z.abs z) with (Z.of_N a) by lia.
  set (sh := (N.size a - 53)%N).
  rewrite N.shiftl_1_l, N.shiftl_mul_pow2.
  transitivity (2 ^ 1024 ≤ Float.shift_round a sh * 2 ^ sh)%N.
  { destruct (N.leb_spec (2 ^ 1024) (Float.shift_round a sh * 2 ^ sh));
      split; (done || lia). }
  transitivity (2 ^ 1024 ≤ a + 2 ^ 970)%N; [|lia].
  pose proof (N.size_gt a) as Hgt. pose proof (N.size_le a) as Hle.
  rewrite N.succ_double_spec in Hle.
  destruct (N.eq_dec sh 0%N) as [Hz|Hnz].
  - rewrite Hz. unfold Float.shift_round. cbn [N.eqb].
    assert (2 ^ N.size a ≤ 2 ^ 53)%N by (apply N.pow_le_mono_r; lia).
    lia.
  - assert (N.size a = sh + 53)%N as Hs by lia.
    rewrite Hs, N.pow_add_r in Hgt, Hle.
    pose proof (shift_round_bounds a sh Hnz) as Hm.
    rewrite N.shiftr_div_pow2 in Hm.
    set (m := Float.shift_round a sh) in *.
    assert (2 ^ sh ≠ 0)%N as HP by (apply N.pow_nonzero; lia).
    assert (a / 2 ^ sh < 2 ^ 53)%N as Hq1
      by (apply N.Div0.div_lt_upper_bound; lia).
    assert (2 ^ 52 ≤ a / 2 ^ sh)%N as Hq2
      by (apply N.div_le_lower_bound; lia).
    destruct (N.lt_trichotomy sh 971%N) as [Hlt|[Heq|Hlt]].
    + assert (2 ^ sh ≤ 2 ^ 970)%N by (apply N.pow_le_mono_r; lia).
      assert (m * 2 ^ sh ≤ 2 ^ 53 * 2 ^ 970)%N
        by (apply N.mul_le_mono; lia).
      lia.
    + subst m. revert Hm Hq1 Hq2 Hgt Hle. rewrite Heq. clear.
      unfold Float.shift_round. cbv zeta. cbn [N.eqb].
      rewrite N.shiftr_div_pow2, N.land_ones, N.shiftl_1_l.
      change (971 - 1)%N with 970%N.
      pose proof (N.div_mod a (2 ^ 971)) as Hdm.
      pose proof (N.mod_lt a (2 ^ 971)) as Hr.
      set (q := (a / 2 ^ 971)%N) in *. set (r := (a mod 2 ^ 971)%N) in *.
      intros _ Hq1 Hq2 _ _.
      destruct (N.eq_dec q (2 ^ 53 - 1)%N) as [Hq|Hq].
      * rewrite Hq in *. replace (N.odd (2 ^ 53 - 1)) with true by reflexivity.
        destruct (N.ltb_spec (2 ^ 970) r), (N.eqb_spec r (2 ^ 970));
          cbn [orb andb]; lia.
      * destruct (_ || _); lia.
    + assert (2 ^ 972 ≤ 2 ^ sh)%N by (apply N.pow_le_mono_r; lia).
      assert (2 ^ 52 * 2 ^ 972 ≤ m * 2 ^ sh)%N
        by (apply N.mul_le_mono; lia).
      lia.
Qed.

Lemma of_int_raises (z : Z) (e : exn) :
  Float.of_int z = Raise e → e = OverflowError.
Proof. unfold Float.of_int. cbv zeta. case_match; congruence. Qed.

(** X15. [format_currency] raises in one case only: the amount is an
    [int] of magnitude [2^1024 - 2^970] or more, and the exception is
    [OverflowError]. Every other amount gives a text. *)
Theorem format_currency_raises_iff (amount : pyval) (e : exn) :
  format_currency amount = Raise e
  ↔ e = OverflowError
    ∧ ∃ z, amount = PyInt z ∧ (2 ^ 1024 - 2 ^ 970 ≤ Z.abs z)%Z.
Proof.
  destruct amount as [|b|z|x|s|l|d];
    try (split; [done|by intros (_ & z' & [=] & _)]).
  - split; [|by intros (_ & z' & [=] & _)].
    intros H. by destruct b; vm_compute in H.
  - unfold format_currency, format_comma_0f.
    destruct (Float.of_int z) as [x|e'] eqn:Hz;
      cbn [mbind result_bind].
    + split; [done|]. intros (_ & z' & [= <-] & Hbig).
      apply of_int_overflow_iff in Hbig. congruence.
    + pose proof (of_int_raises _ _ Hz) as ->.
      split.
      * intros [= <-]. split; [done|]. exists z. split; [done|].
        by apply of_int_overflow_iff.
      * by intros (-> & _).
Qed.

(** The shape of the recursion of [Float.group3]. *)
Lemma group3_ind (P : pystr → Prop) :
  P [] → (∀ a, P [a]) → (∀ a b, P [a; b]) → (∀ a b c, P [a; b; c]) →
  (∀ a b c d r, P (d :: r) → P (a :: b :: c :: d :: r)) →
  ∀ l, P l.
Proof.
  intros H0 H1 H2 H3 H4 l.
  assert (∀ n l, length l ≤ n → P l) as H; [|by apply (H (length l))].
  clear l. induction n as [|n IH]; intros l Hl.
  - destruct l; [done|cbn in Hl; lia].
  - destruct l as [|a [|b [|c [|d r]]]]; try done.
    apply H4, IH. cbn in *. lia.
Qed.

(** What [Float.group3] does to digits: taking the commas out gives
    the digits back, no comma ends the text, and the commas are at
    every fourth place. *)
Lemma group3_spec (l : pystr) :
  Forall (λ c, is_digit c = true) l →
  filter (λ c, is_digit c = true) (Float.group3 l) = l
  ∧ last (Float.group3 l) ≠ Some COMMA
  ∧ ∀ i c, Float.group3 l !! i = Some c → c = COMMA ↔ i mod 4 = 3.
Proof.
  assert (∀ c, is_digit c = true → c ≠ COMMA) as Hne.
  { intros c. bool_to_prop. unfold COMMA. lia. }
  induction l as [|a|a b|a b c|a b c d r IH] using group3_ind; intros Hd;
    unfold pystr in *.
  - split_and!; [done..|]. by intros [|?].
  - apply Forall_cons in Hd as [Ha _]. cbn [Float.group3].
    rewrite filter_cons, decide_True by done. split_and!; [done| |].
    + cbn. intros [= ->]. by eapply Hne.
    + intros [|?] c; [|done]. intros [= <-]. split; [by intros ?%Hne|done].
  - apply Forall_cons in Hd as [Ha Hd]. apply Forall_cons in Hd as [Hb _].
    cbn [Float.group3].
    rewrite !filter_cons, !decide_True by done. split_and!; [done| |].
    + cbn. intros [= ->]. by eapply Hne.
    + intros [|[|?]] x; [| |done]; intros [= <-];
        (split; [by intros ?%Hne|done]).
  - apply Forall_cons in Hd as [Ha Hd]. apply Forall_cons in Hd as [Hb Hd].
    apply Forall_cons in Hd as [Hc _]. cbn [Float.group3].
    rewrite !filter_cons, !decide_True by done. split_and!; [done| |].
    + cbn. intros [= ->]. by eapply Hne.
    + intros [|[|[|?]]] x; [| | |done]; intros [= <-];
        (split; [by intros ?%Hne|done]).
  - apply Forall_cons in Hd as [Ha Hd]. apply Forall_cons in Hd as [Hb Hd].
    apply Forall_cons in Hd as [Hc Hd].
    destruct (IH Hd) as (IH1 & IH2 & IH3).
    change (Float.group3 (a :: b :: c :: d :: r))
      with (a :: b :: c :: COMMA :: Float.group3 (d :: r)).
    split_and!.
    + rewrite !filter_cons, !decide_True by done.
      rewrite decide_False by done. by rewrite IH1.
    + destruct (Float.group3 (d :: r)) as [|x xs] eqn:Hg; [|done].
      rewrite filter_nil in IH1. done.
    + intros [|[|[|[|i]]]] x.
      1-3: intros [= <-]; (split; [by intros ?%Hne|done]).
      * by intros [= <-].
      * cbn [lookup list_lookup]. intros Hx. rewrite (IH3 _ _ Hx).
        replace (S (S (S (S i)))) with (i + 1 * 4) by lia.
        by rewrite Nat.Div0.mod_add.
Qed.

(** A number is written with digits. *)
Lemma decimal_digits (n : N) : Forall (λ c, is_digit c = true) (decimal n).
Proof.
  unfold decimal. generalize (N.to_uint n). intros u.
  induction u; cbn; by constructor.
Qed.

Lemma filter_rev (P : N → Prop) `{∀ c, Decision (P c)} (l : list N) :
  filter P (rev l) = rev (filter P l).
Proof.
  induction l as [|a l IH]; [done|]. cbn [rev].
  rewrite filter_app, IH, !filter_cons, filter_nil.
  destruct (decide (P a)); [done|]. by rewrite app_nil_r.
Qed.

Lemma head_rev (l : list N) : head (rev l) = last l.
Proof.
  rewrite <- (rev_involutive l) at 2.
  destruct (rev l) as [|a r]; [done|]. cbn [rev]. by rewrite last_snoc.
Qed.

(** X16. An [int] amount below [2^53] in magnitude is rendered as a
    dollar sign, a minus sign when it is negative, and a body that
    holds the digits of the amount in their order, does not begin with
    a comma, and has a comma at every fourth place counted from the
    right and nowhere else. *)
Theorem format_currency_groups_of_three (z : Z) :
  (Z.abs z < 2 ^ 53)%Z →
  ∃ body : list N,
    format_currency (PyInt z)
    = Ok (str "$" ++ Float.sign (z <? 0)%Z ++ body)
    ∧ filter (λ c, is_digit c = true) body = decimal (Z.abs_N z)
    ∧ head body ≠ Some COMMA
    ∧ ∀ i c, rev body !! i = Some c → c = COMMA ↔ i mod 4 = 3.
Proof.
  intros Hz. eexists. split; [by apply format_currency_exact|].
  unfold Float.thousands.
  destruct (group3_spec (rev (decimal (Z.abs_N z)))) as (Hf & Hl & Hi).
  { apply Forall_rev, decimal_digits. }
  unfold pystr in *.
  rewrite filter_rev, Hf, head_rev, !rev_involutive. done.
Qed.

Lemma format_currency_groups_of_three_witness :
  ∃ body : list N,
    format_currency (PyInt 1234567)
    = Ok (str "$" ++ Float.sign (1234567 <? 0)%Z ++ body)
    ∧ filter (λ c, is_digit c = true) body = decimal (Z.abs_N 1234567)
    ∧ head body ≠ Some COMMA
    ∧ ∀ i c, rev body !! i = Some c → c = COMMA ↔ i mod 4 = 3.
Proof. apply format_currency_groups_of_three. by vm_compute. Defined.
